(** * rocketchat_async.methods: the realtime operation catalog

    A shallow embedding of [rocketchat_async/methods.py] and the properties
    of its correlation-id allocator, message builders, response parsers and
    subscription adapters.

    Conventions of the embedding.
    - A Python [int] is a [Z] (unbounded, no wrap-around).
    - A Python [str] is a Rocq [string] holding the UTF-8 encoding of the
      text, so [str.encode()] is the byte sequence of the string itself and
      f-string concatenation is [+:+].  Text without a UTF-8 encoding (a lone
      surrogate) is outside the model.
    - A Python [dict] with string keys is a [gmap string value].
    - Exceptions are an explicit error type; stateful code threads a [world]
      (the class attribute [RealtimeRequest._max_id], the wall clock and the
      trace of what was handed to the Dispatcher and to callbacks). *)

From Stdlib Require Import ZArith Lia Ascii String List PrimFloat.
From stdpp Require Import base option list strings gmap pretty sorting.

#[local] Set Warnings "-register-all".
#[local] Open Scope Z_scope.

(** * hashlib

    [hashlib.md5] and [hashlib.sha256] are library code; they are modelled by
    the algorithms of RFC 1321 and FIPS 180-4 on lists of bytes. *)

Module hashlib.

Definition mask32 : Z := 0xFFFFFFFF.
Definition u32 (x : Z) : Z := Z.land x mask32.
Definition not32 (x : Z) : Z := Z.lxor (u32 x) mask32.
Definition rotl32 (x s : Z) : Z :=
  u32 (Z.lor (Z.shiftl x s) (Z.shiftr x (32 - s))).
Definition rotr32 (x s : Z) : Z := rotl32 x (32 - s).

(** [n] bytes of [x], least significant first. *)
Fixpoint le_bytes (n : nat) (x : Z) : list Z :=
  match n with
  | O => []
  | S n' => x mod 256 :: le_bytes n' (x / 256)
  end.
Definition be_bytes (n : nat) (x : Z) : list Z := rev (le_bytes n x).

Fixpoint le_word (bs : list Z) : Z :=
  match bs with
  | [] => 0
  | b :: bs' => b + 256 * le_word bs'
  end.
Definition be_word (bs : list Z) : Z := le_word (rev bs).

(** Cut a list into consecutive pieces of [k] elements. *)
Fixpoint chunks_go (fuel k : nat) (l : list Z) : list (list Z) :=
  match fuel, l with
  | O, _ | _, [] => []
  | S fuel', _ => take k l :: chunks_go fuel' k (drop k l)
  end.
Definition chunks (k : nat) (l : list Z) : list (list Z) :=
  chunks_go (length l) k l.

(** Both digests pad with 0x80, zeros up to 56 mod 64, then the bit length
    on 8 bytes (little endian for MD5, big endian for SHA-256). *)
Definition zero_pad (len : nat) : list Z :=
  replicate ((119 - len mod 64) mod 64)%nat 0.
Definition bit_length (bs : list Z) : Z :=
  (8 * Z.of_nat (length bs)) mod 2 ^ 64.

(** ** Lower-case hexadecimal, as [hexdigest] prints it *)

Definition hex_digit (n : Z) : ascii :=
  nth (Z.to_nat (n mod 16)) (list_ascii_of_string "0123456789abcdef")
      "0"%char.
Definition hex_byte (b : Z) : string :=
  String (hex_digit (b / 16)) (String (hex_digit b) "").
Definition hexlify (bs : list Z) : string :=
  foldr (λ b s, hex_byte b +:+ s) "" bs.

Definition is_hex (c : ascii) : bool :=
  bool_decide (c ∈ list_ascii_of_string "0123456789abcdef").

(** ** MD5 (RFC 1321) *)

Definition md5_K : list Z :=
  [ 0xd76aa478; 0xe8c7b756; 0x242070db; 0xc1bdceee;
    0xf57c0faf; 0x4787c62a; 0xa8304613; 0xfd469501;
    0x698098d8; 0x8b44f7af; 0xffff5bb1; 0x895cd7be;
    0x6b901122; 0xfd987193; 0xa679438e; 0x49b40821;
    0xf61e2562; 0xc040b340; 0x265e5a51; 0xe9b6c7aa;
    0xd62f105d; 0x02441453; 0xd8a1e681; 0xe7d3fbc8;
    0x21e1cde6; 0xc33707d6; 0xf4d50d87; 0x455a14ed;
    0xa9e3e905; 0xfcefa3f8; 0x676f02d9; 0x8d2a4c8a;
    0xfffa3942; 0x8771f681; 0x6d9d6122; 0xfde5380c;
    0xa4beea44; 0x4bdecfa9; 0xf6bb4b60; 0xbebfbc70;
    0x289b7ec6; 0xeaa127fa; 0xd4ef3085; 0x04881d05;
    0xd9d4d039; 0xe6db99e5; 0x1fa27cf8; 0xc4ac5665;
    0xf4292244; 0x432aff97; 0xab9423a7; 0xfc93a039;
    0x655b59c3; 0x8f0ccc92; 0xffeff47d; 0x85845dd1;
    0x6fa87e4f; 0xfe2ce6e0; 0xa3014314; 0x4e0811a1;
    0xf7537e82; 0xbd3af235; 0x2ad7d2bb; 0xeb86d391 ].

Definition md5_S : list Z :=
  [ 7; 12; 17; 22; 7; 12; 17; 22; 7; 12; 17; 22; 7; 12; 17; 22;
    5; 9; 14; 20; 5; 9; 14; 20; 5; 9; 14; 20; 5; 9; 14; 20;
    4; 11; 16; 23; 4; 11; 16; 23; 4; 11; 16; 23; 4; 11; 16; 23;
    6; 10; 15; 21; 6; 10; 15; 21; 6; 10; 15; 21; 6; 10; 15; 21 ].

Definition md5_state : Type := Z * Z * Z * Z.

Definition md5_init : md5_state :=
  (0x67452301, 0xefcdab89, 0x98badcfe, 0x10325476).

Definition md5_step (M : list Z) (st : md5_state) (i : nat) : md5_state :=
  let '(A, B, C, D) := st in
  let '(F, g) :=
    if (i <? 16)%nat then
      (Z.lor (Z.land B C) (Z.land (not32 B) D), i)
    else if (i <? 32)%nat then
      (Z.lor (Z.land D B) (Z.land (not32 D) C), ((5 * i + 1) mod 16)%nat)
    else if (i <? 48)%nat then
      (Z.lxor (Z.lxor B C) D, ((3 * i + 5) mod 16)%nat)
    else
      (Z.lxor C (Z.lor B (not32 D)), ((7 * i) mod 16)%nat) in
  let F' := u32 (F + A + nth i md5_K 0 + nth g M 0) in
  (D, u32 (B + rotl32 F' (nth i md5_S 0)), B, C).

Definition md5_block (st : md5_state) (block : list Z) : md5_state :=
  let M := le_word <$> chunks 4 block in
  let '(a, b, c, d) := st in
  let '(A, B, C, D) := foldl (md5_step M) st (seq 0 64) in
  (u32 (a + A), u32 (b + B), u32 (c + C), u32 (d + D)).

Definition md5_pad (bs : list Z) : list Z :=
  bs ++ [0x80] ++ zero_pad (length bs) ++ le_bytes 8 (bit_length bs).

Definition md5_digest (bs : list Z) : list Z :=
  let '(a, b, c, d) := foldl md5_block md5_init (chunks 64 (md5_pad bs)) in
  le_bytes 4 a ++ le_bytes 4 b ++ le_bytes 4 c ++ le_bytes 4 d.

Definition md5_hexdigest (bs : list Z) : string := hexlify (md5_digest bs).

(** ** SHA-256 (FIPS 180-4) *)

(** The round constants are the first 32 bits of the fractional parts of
    the cube roots of the first 64 primes, the initial hash value those of
    the square roots of the first 8 (sections 4.2.2 and 5.3.3). *)
Definition is_prime (p : Z) : bool :=
  forallb (λ d, negb (p mod d =? 0)) (seqZ 2 (p - 2)).
Definition first_primes : list Z :=
  Eval vm_compute in filter (λ p, is_prime p = true) (seqZ 2 310).

Definition icbrt (n : Z) : Z :=
  foldl (λ r b, let r' := r + 2 ^ b in if r' ^ 3 <=? n then r' else r)
        0 (Z.of_nat <$> rev (seq 0 36)).

Definition sha256_K : list Z :=
  Eval vm_compute in (λ p, icbrt (p * 2 ^ 96) mod 2 ^ 32) <$> first_primes.
Definition sha256_H0 : list Z :=
  Eval vm_compute in
    (λ p, Z.sqrt (p * 2 ^ 64) mod 2 ^ 32) <$> take 8 first_primes.

Definition Ch (x y z : Z) : Z :=
  Z.lxor (Z.land x y) (Z.land (not32 x) z).
Definition Maj (x y z : Z) : Z :=
  Z.lxor (Z.lxor (Z.land x y) (Z.land x z)) (Z.land y z).
Definition Sigma0 (x : Z) : Z :=
  Z.lxor (Z.lxor (rotr32 x 2) (rotr32 x 13)) (rotr32 x 22).
Definition Sigma1 (x : Z) : Z :=
  Z.lxor (Z.lxor (rotr32 x 6) (rotr32 x 11)) (rotr32 x 25).
Definition sigma0 (x : Z) : Z :=
  Z.lxor (Z.lxor (rotr32 x 7) (rotr32 x 18)) (Z.shiftr x 3).
Definition sigma1 (x : Z) : Z :=
  Z.lxor (Z.lxor (rotr32 x 17) (rotr32 x 19)) (Z.shiftr x 10).

(** The message schedule: 16 words of the block, extended to 64. *)
Definition sha256_schedule (block : list Z) : list Z :=
  foldl (λ W t,
           W ++ [u32 (sigma1 (nth (t - 2) W 0) + nth (t - 7) W 0
                      + sigma0 (nth (t - 15) W 0) + nth (t - 16) W 0)])
        (be_word <$> chunks 4 block) (seq 16 48).

Record sha256_state : Type := Sha256State {
  ha : Z; hb : Z; hc : Z; hd : Z; he : Z; hf : Z; hg : Z; hh : Z
}.

Definition sha256_init : sha256_state :=
  let h i := nth i sha256_H0 0 in
  Sha256State (h 0%nat) (h 1%nat) (h 2%nat) (h 3%nat)
              (h 4%nat) (h 5%nat) (h 6%nat) (h 7%nat).

Definition sha256_step (W : list Z) (st : sha256_state) (t : nat)
  : sha256_state :=
  let 'Sha256State a b c d e f g h := st in
  let T1 := u32 (h + Sigma1 e + Ch e f g + nth t sha256_K 0 + nth t W 0) in
  let T2 := u32 (Sigma0 a + Maj a b c) in
  Sha256State (u32 (T1 + T2)) a b c (u32 (d + T1)) e f g.

Definition sha256_block (st : sha256_state) (block : list Z)
  : sha256_state :=
  let W := sha256_schedule block in
  let st' := foldl (sha256_step W) st (seq 0 64) in
  Sha256State (u32 (ha st + ha st')) (u32 (hb st + hb st'))
              (u32 (hc st + hc st')) (u32 (hd st + hd st'))
              (u32 (he st + he st')) (u32 (hf st + hf st'))
              (u32 (hg st + hg st')) (u32 (hh st + hh st')).

Definition sha256_pad (bs : list Z) : list Z :=
  bs ++ [0x80] ++ zero_pad (length bs) ++ be_bytes 8 (bit_length bs).

Definition sha256_digest (bs : list Z) : list Z :=
  let st := foldl sha256_block sha256_init (chunks 64 (sha256_pad bs)) in
  be_bytes 4 (ha st) ++ be_bytes 4 (hb st) ++ be_bytes 4 (hc st)
    ++ be_bytes 4 (hd st) ++ be_bytes 4 (he st) ++ be_bytes 4 (hf st)
    ++ be_bytes 4 (hg st) ++ be_bytes 4 (hh st).

Definition sha256_hexdigest (bs : list Z) : string :=
  hexlify (sha256_digest bs).

End hashlib.

(** * Python values and the operations the catalog applies to them *)

Inductive value : Type :=
  | VNone
  | VBool (b : bool)
  | VInt (n : Z)
  | VFloat (x : float)
  | VStr (s : string)
  | VList (l : list value)
  | VDict (d : gmap string value).

(** A dict literal. *)
Definition dict (items : list (string * value)) : value :=
  VDict (list_to_map items).

Inductive exn : Type :=
  | KeyError
  | IndexError
  | TypeError
  | AttributeError
  | ExternalError (name : string).

Inductive res (A : Type) : Type :=
  | Ok (a : A)
  | Raise (e : exn).
Arguments Ok {A} a.
Arguments Raise {A} e.

#[global] Instance res_ret : MRet res := @Ok.
#[global] Instance res_bind : MBind res := λ A B f r,
  match r with
  | Ok a => f a
  | Raise e => Raise e
  end.

(** [s.encode()]: the bytes of a [str]. *)
Definition encode (s : string) : list Z :=
  (λ c, Z.of_N (N_of_ascii c)) <$> list_ascii_of_string s.

(** The characters of a [str]: a byte of the form 10xxxxxx continues the
    character begun by the lead byte before it. *)
Definition is_continuation (c : ascii) : bool :=
  let n := N_of_ascii c in ((128 <=? n) && (n <? 192))%N.

Fixpoint chars_go (s : string) : string * list string :=
  match s with
  | EmptyString => (EmptyString, [])
  | String c s' =>
      let '(pending, cs) := chars_go s' in
      if is_continuation c then (String c pending, cs)
      else (EmptyString, String c pending :: cs)
  end.
Definition chars (s : string) : list string := (chars_go s).2.

(** [v[k]] for a [str] key [k]. *)
Definition getitem_key (v : value) (k : string) : res value :=
  match v with
  | VDict d =>
      match d !! k with
      | Some x => Ok x
      | None => Raise KeyError
      end
  | _ => Raise TypeError
  end.

(** [v[i]] for a literal index [i] (the source only writes [0] and [1]). *)
Definition getitem_idx (v : value) (i : nat) : res value :=
  match v with
  | VList l =>
      match l !! i with
      | Some x => Ok x
      | None => Raise IndexError
      end
  | VStr s =>
      match chars s !! i with
      | Some c => Ok (VStr c)
      | None => Raise IndexError
      end
  | VDict _ => Raise KeyError
  | _ => Raise TypeError
  end.

(** [args[i]] on an argument list. *)
Definition arg (args : list value) (i : nat) : res value :=
  match args !! i with
  | Some x => Ok x
  | None => Raise IndexError
  end.

(** [v.encode()]: only a [str] has the method. *)
Definition str_encode (v : value) : res (list Z) :=
  match v with
  | VStr s => Ok (encode s)
  | _ => Raise AttributeError
  end.

(** [for r in v]: the elements of a list, the keys of a dict, the characters
    of a str. *)
Definition iterate (v : value) : res (list value) :=
  match v with
  | VList l => Ok l
  | VDict d => Ok (VStr <$> (map_to_list d).*1)
  | VStr s => Ok (VStr <$> chars s)
  | _ => Raise TypeError
  end.

(** [v == s] for a [str] literal [s]. *)
Definition eq_str (v : value) (s : string) : bool :=
  match v with
  | VStr s' => bool_decide (s' = s)
  | _ => false
  end.

(** [s[:n]] on a [str] of one-byte characters (a hexadecimal digest). *)
Definition str_take (n : nat) (s : string) : string := substring 0 n s.

(** * The world the operations run in *)

(** A callable supplied by the caller, referred to by name; what it returns
    is the environment's business. *)
Definition callback : Type := string.

(** The closures the two [_wrap] methods return. *)
Inductive adapter : Type :=
  | ChannelMessagesFn (cb : callback)
  | ChannelChangesFn (cb : callback).

(** What leaves this layer: calls into the Dispatcher and invocations of
    callbacks. *)
Inductive event : Type :=
  | CallMethod (msg : value) (id : option string)
  | CreateSubscription (msg : value) (id : string) (fn : adapter)
  | Invoke (cb : callback) (args : list value).

(** [time.time()] is only ever formatted by an f-string: the clock is
    carried as the text that formatting gives. *)
Definition timestamp : Type := string.

Record world : Type := World {
  _max_id : Z;
  now : timestamp;
  trace : list event
}.

(** The state at import: [_max_id = 0], nothing sent. *)
Definition initial (t : timestamp) : world := World 0 t [].

Definition M (A : Type) : Type := world → res A * world.

Definition ret {A} (a : A) : M A := λ w, (Ok a, w).
Definition bind {A B} (m : M A) (k : A → M B) : M B := λ w,
  match m w with
  | (Ok a, w') => k a w'
  | (Raise e, w') => (Raise e, w')
  end.
Definition lift {A} (r : res A) : M A := λ w, (r, w).

Notation "'let*' x := m 'in' k" := (bind m (λ x, k))
  (at level 10, x name, m at level 100, k at level 200,
   format "'[v' 'let*'  x  :=  m  'in' '/' k ']'").
Notation "m ;;; k" := (bind m (λ _, k))
  (at level 100, k at level 200, right associativity).

Definition log (e : event) : M unit := λ w,
  (Ok (), World (_max_id w) (now w) (trace w ++ [e])).

Module time.
Definition time : M timestamp := λ w, (Ok (now w), w).
End time.

(** The collaborators: the Dispatcher's two primitives and the callbacks.
    The class gives what each returns (or raises) to this layer. *)
Class Environment : Type := {
  call_method_result : world → value → option string → res value;
  create_subscription_result : world → value → string → adapter → res value;
  callback_result : world → callback → list value → res value
}.

Module dispatcher.
Section WithEnvironment.
Context `{!Environment}.

(** Modelled from the spec: the Dispatcher's
    [call_method(message, id?) -> raw_response], which awaits a reply if
    [id] is given and is fire-and-forget otherwise.  The hand-off is
    recorded; the reply is the environment's. *)
Definition call_method (msg : value) (id : option string) : M value :=
  λ w, bind (log (CallMethod msg id))
            (λ _, lift (call_method_result w msg id)) w.

(** Modelled from the spec: the Dispatcher's
    [create_subscription(message, id, adapter)], which registers
    [adapter] to run on each matching push. *)
Definition create_subscription (msg : value) (id : string) (fn : adapter)
  : M value :=
  λ w, bind (log (CreateSubscription msg id fn))
            (λ _, lift (create_subscription_result w msg id fn)) w.
End WithEnvironment.

(** Per the contract, [call_method] awaits a reply exactly when it is
    given an id. *)
Definition awaits_reply (e : event) : bool :=
  match e with
  | CallMethod _ (Some _) => true
  | _ => false
  end.
End dispatcher.

(** Calling a callback: the invocation is recorded and its result returned. *)
Definition invoke `{!Environment} (cb : callback) (args : list value)
  : M value :=
  λ w, bind (log (Invoke cb args)) (λ _, lift (callback_result w cb args)) w.

(** * The operation catalog *)

Module RealtimeRequest.
(** [_max_id += 1; return f'{_max_id}'] on the one counter all operation
    classes inherit. *)
Definition _get_new_id : M string := λ w,
  let n := _max_id w + 1 in
  (Ok (pretty n), World n (now w) (trace w)).
End RealtimeRequest.

Module Connect.
Definition REQUEST_MSG : value :=
  dict [("msg", VStr "connect");
        ("version", VStr "1");
        ("support", VList [VStr "1"])].

Definition call `{!Environment} : M value :=
  dispatcher.call_method REQUEST_MSG None;;;
  ret VNone.
End Connect.

Module Login.
Definition _get_request_msg (msg_id : string) (args : list value)
  : res value :=
  let msg : gmap string value :=
    list_to_map [("msg", VStr "method");
                 ("method", VStr "login");
                 ("id", VStr msg_id)] in
  if bool_decide (length args = 1%nat) then
    resume ← arg args 0;
    Ok (VDict (<["params" := VList [dict [("resume", resume)]]]> msg))
  else
    password ← arg args 1;
    bytes ← str_encode password;
    let pwd_digest := hashlib.sha256_hexdigest bytes in
    username ← arg args 0;
    Ok (VDict (<["params" :=
                  VList [dict [("user", dict [("username", username)]);
                               ("password",
                                dict [("digest", VStr pwd_digest);
                                      ("algorithm", VStr "sha-256")])]]]>
                 msg)).

Definition _parse (response : value) : res value :=
  result ← getitem_key response "result";
  getitem_key result "id".

Definition call `{!Environment} (args : list value) : M value :=
  let* msg_id := RealtimeRequest._get_new_id in
  let* msg := lift (_get_request_msg msg_id args) in
  let* response := dispatcher.call_method msg (Some msg_id) in
  lift (_parse response).
End Login.

Module GetChannels.
Definition _get_request_msg (msg_id : string) : value :=
  dict [("msg", VStr "method");
        ("method", VStr "rooms/get");
        ("id", VStr msg_id);
        ("params", VList [])].

(** [[(r['_id'], r['t']) for r in response['result']]] *)
Definition _parse (response : value) : res (list (value * value)) :=
  result ← getitem_key response "result";
  rs ← iterate result;
  mapM (λ r, id ← getitem_key r "_id";
             t ← getitem_key r "t";
             Ok (id, t)) rs.

Definition call `{!Environment} : M (list (value * value)) :=
  let* msg_id := RealtimeRequest._get_new_id in
  let msg := _get_request_msg msg_id in
  let* response := dispatcher.call_method msg (Some msg_id) in
  lift (_parse response).
End GetChannels.

Module SendMessage.
(** The base fields of the single params object. *)
Definition base_params (id_seed : string) (channel_id msg_text : value)
  : gmap string value :=
  list_to_map
    [("_id", VStr (str_take 12 (hashlib.md5_hexdigest (encode id_seed))));
     ("rid", channel_id);
     ("msg", msg_text)].

Definition _get_request_msg (msg_id : string) (channel_id msg_text : value)
    (kwargs : gmap string value) : M value :=
  let* t := time.time in
  let id_seed := msg_id +:+ ":" +:+ t in
  let params0 := base_params id_seed channel_id msg_text in
  (* for key, value in kwargs.items(): msg["params"][0][key] = value *)
  let params0 := map_fold (λ key value p, <[key := value]> p)
                          params0 kwargs in
  ret (dict [("msg", VStr "method");
             ("method", VStr "sendMessage");
             ("id", VStr msg_id);
             ("params", VList [VDict params0])]).

Definition call `{!Environment} (msg_text channel_id : value)
    (kwargs : gmap string value) : M value :=
  let* msg_id := RealtimeRequest._get_new_id in
  let* msg := _get_request_msg msg_id channel_id msg_text kwargs in
  dispatcher.call_method msg (Some msg_id);;;
  ret VNone.
End SendMessage.

Module SendReaction.
Definition _get_request_msg (msg_id : string) (orig_msg_id emoji : value)
  : value :=
  dict [("msg", VStr "method");
        ("method", VStr "setReaction");
        ("id", VStr msg_id);
        ("params", VList [emoji; orig_msg_id])].

Definition call `{!Environment} (orig_msg_id emoji : value) : M value :=
  let* msg_id := RealtimeRequest._get_new_id in
  let msg := _get_request_msg msg_id orig_msg_id emoji in
  dispatcher.call_method msg None;;;
  ret VNone.
End SendReaction.

Module SendTypingEvent.
Definition _get_request_msg (msg_id channel_id : string)
    (username is_typing : value) : value :=
  dict [("msg", VStr "method");
        ("method", VStr "stream-notify-room");
        ("id", VStr msg_id);
        ("params", VList [VStr (channel_id +:+ "/typing");
                          username;
                          is_typing])].

Definition call `{!Environment} (channel_id : string)
    (username is_typing : value) : M value :=
  let* msg_id := RealtimeRequest._get_new_id in
  let msg := _get_request_msg msg_id channel_id username is_typing in
  dispatcher.call_method msg (Some msg_id);;;
  ret VNone.
End SendTypingEvent.

Module SubscribeToChannelMessages.
Definition _get_request_msg (msg_id : string) (channel_id : value) : value :=
  dict [("msg", VStr "sub");
        ("id", VStr msg_id);
        ("name", VStr "stream-room-messages");
        ("params", VList [channel_id;
                          dict [("useCollection", VBool false);
                                ("args", VList [])]])].

(** The body of the closure [fn] that [_wrap(callback)] returns. *)
Definition fn `{!Environment} (cb : callback) (msg : value) : M value :=
  let* fields := lift (getitem_key msg "fields") in
  let* args := lift (getitem_key fields "args") in
  let* message := lift (getitem_idx args 0) in
  let* msg_id := lift (getitem_key message "_id") in
  let* channel_id := lift (getitem_key message "rid") in
  let* u := lift (getitem_key message "u") in
  let* sender_id := lift (getitem_key u "_id") in
  invoke cb [channel_id; sender_id; msg_id; message].

Definition _wrap (cb : callback) : adapter := ChannelMessagesFn cb.

Definition call `{!Environment} (channel_id : value) (cb : callback)
  : M value :=
  let* msg_id := RealtimeRequest._get_new_id in
  let msg := _get_request_msg msg_id channel_id in
  dispatcher.create_subscription msg msg_id (_wrap cb);;;
  ret (VStr msg_id).
End SubscribeToChannelMessages.

Module SubscribeToChannelChanges.
Definition _get_request_msg (msg_id user_id : string) : value :=
  dict [("msg", VStr "sub");
        ("id", VStr msg_id);
        ("name", VStr "stream-notify-user");
        ("params", VList [VStr (user_id +:+ "/rooms-changed");
                          VBool false])].

(** The body of the closure [fn] that [_wrap(callback)] returns. *)
Definition fn `{!Environment} (cb : callback) (msg : value) : M value :=
  let* fields := lift (getitem_key msg "fields") in
  let* payload := lift (getitem_key fields "args") in
  let* first := lift (getitem_idx payload 0) in
  if eq_str first "removed" then
    ret VNone
  else
    let* second := lift (getitem_idx payload 1) in
    let* channel_id := lift (getitem_key second "_id") in
    let* second' := lift (getitem_idx payload 1) in
    let* channel_type := lift (getitem_key second' "t") in
    invoke cb [channel_id; channel_type].

Definition _wrap (cb : callback) : adapter := ChannelChangesFn cb.

Definition call `{!Environment} (user_id : string) (cb : callback)
  : M value :=
  let* msg_id := RealtimeRequest._get_new_id in
  let msg := _get_request_msg msg_id user_id in
  dispatcher.create_subscription msg msg_id (_wrap cb);;;
  ret (VStr msg_id).
End SubscribeToChannelChanges.

Module Unsubscribe.
Definition _get_request_msg (subscription_id : value) : value :=
  dict [("msg", VStr "unsub");
        ("id", subscription_id)].

Definition call `{!Environment} (subscription_id : value) : M value :=
  let msg := _get_request_msg subscription_id in
  dispatcher.call_method msg None;;;
  ret VNone.
End Unsubscribe.

(** Running a registered adapter on a push event. *)
Definition apply_adapter `{!Environment} (fn : adapter) (msg : value)
  : M value :=
  match fn with
  | ChannelMessagesFn cb => SubscribeToChannelMessages.fn cb msg
  | ChannelChangesFn cb => SubscribeToChannelChanges.fn cb msg
  end.

(** * Interleaved executions

    An [await] is the only place where another operation's call can run, and
    every [call] allocates its id before its first [await].  An execution of
    the process is therefore a sequence of atomic steps: an allocation by
    some operation class, a hand-off that is appended to the trace, or the
    clock moving on. *)

Inductive operation : Type :=
  | OpLogin | OpGetChannels | OpSendMessage | OpSendReaction
  | OpSendTypingEvent | OpSubscribeToChannelMessages
  | OpSubscribeToChannelChanges.

Inductive step : Type :=
  | Allocate (cls : operation)
  | HandOff (e : event)
  | Tick (t : timestamp).

(** [cls._get_new_id()] resolves, for every subclass, to the static method of
    [RealtimeRequest]. *)
Definition get_new_id_of (cls : operation) : M string :=
  RealtimeRequest._get_new_id.

Definition exec_step (s : step) : M (option string) :=
  match s with
  | Allocate cls => let* id := get_new_id_of cls in ret (Some id)
  | HandOff e => log e;;; ret None
  | Tick t => λ w, (Ok None, World (_max_id w) t (trace w))
  end.

(** The ids the allocator returned during a schedule, in order, and the
    world the schedule ends in. *)
Fixpoint exec (sched : list step) (w : world) : list string * world :=
  match sched with
  | [] => ([], w)
  | s :: sched' =>
      let '(r, w') := exec_step s w in
      let '(ids, w'') := exec sched' w' in
      (match r with Ok (Some id) => id :: ids | _ => ids end, w'')
  end.

Fixpoint allocations (sched : list step) : nat :=
  match sched with
  | [] => 0
  | Allocate _ :: sched' => S (allocations sched')
  | _ :: sched' => allocations sched'
  end.

(** * Vocabulary of the specification *)

(** Every string of a value: the [str] leaves and the dict keys. *)
Fixpoint strings_of (v : value) : list string :=
  match v with
  | VStr s => [s]
  | VList l => mjoin (strings_of <$> l)
  | VDict d => map_fold (λ k x acc, k :: strings_of x ++ acc) [] d
  | _ => []
  end.

(** [msg["params"][0][k]] *)
Definition param0_field (msg : value) (k : string) : res value :=
  params ← getitem_key msg "params";
  p0 ← getitem_idx params 0;
  getitem_key p0 k.

(** The [result.id] field of a raw response, when it is there. *)
Definition result_id (response : value) : option value :=
  match response with
  | VDict d =>
      match d !! "result" with
      | Some (VDict r) => r !! "id"
      | _ => None
      end
  | _ => None
  end.

(** [r] is a record carrying [_id] and [t]. *)
Definition channel_record (r : value) (row : value * value) : Prop :=
  ∃ d, r = VDict d ∧ d !! "_id" = Some row.1 ∧ d !! "t" = Some row.2.

(** A push event whose [fields.args] is the list [args]. *)
Definition push_event (msg : value) (args : list value) : Prop :=
  ∃ m f, msg = VDict m ∧ m !! "fields" = Some (VDict f)
         ∧ f !! "args" = Some (VList args).

(** The Login message in username/password form, as the specification
    describes it: the digest and its algorithm alongside the username. *)
Definition password_form (msg_id : string) (username : value)
    (digest : string) : value :=
  dict [("msg", VStr "method");
        ("method", VStr "login");
        ("id", VStr msg_id);
        ("params",
         VList [dict [("user", dict [("username", username)]);
                      ("password", dict [("digest", VStr digest);
                                         ("algorithm", VStr "sha-256")])]])].

(** No hand-off of the trace awaits a reply. *)
Definition fire_and_forget (tr : list event) : Prop :=
  Forall (λ e, dispatcher.awaits_reply e = false) tr.

Definition all_hex (s : string) : bool :=
  forallb hashlib.is_hex (list_ascii_of_string s).

(** An environment in which the Dispatcher answers every awaited call with
    [response], and every other collaborator returns [None]. *)
Definition answering (response : value) : Environment := {|
  call_method_result _ _ id :=
    match id with Some _ => Ok response | None => Ok VNone end;
  create_subscription_result _ _ _ _ := Ok VNone;
  callback_result _ _ _ := Ok VNone
|}.

(** * Sequences of calls

    A caller issues operations one after the other; between them the
    Dispatcher may deliver a push event to a registered adapter.  A call that
    raises does not stop the ones issued after it. *)

Inductive request : Type :=
  | ReqConnect
  | ReqLogin (args : list value)
  | ReqGetChannels
  | ReqSendMessage (msg_text channel_id : value) (kwargs : gmap string value)
  | ReqSendReaction (orig_msg_id emoji : value)
  | ReqSendTypingEvent (channel_id : string) (username is_typing : value)
  | ReqSubscribeToChannelMessages (channel_id : value) (cb : callback)
  | ReqSubscribeToChannelChanges (user_id : string) (cb : callback)
  | ReqUnsubscribe (subscription_id : value)
  | Deliver (fn : adapter) (msg : value).

Definition issue `{!Environment} (r : request) (w : world) : world :=
  match r with
  | ReqConnect => (Connect.call w).2
  | ReqLogin args => (Login.call args w).2
  | ReqGetChannels => (GetChannels.call w).2
  | ReqSendMessage msg_text channel_id kwargs =>
      (SendMessage.call msg_text channel_id kwargs w).2
  | ReqSendReaction orig_msg_id emoji =>
      (SendReaction.call orig_msg_id emoji w).2
  | ReqSendTypingEvent channel_id username is_typing =>
      (SendTypingEvent.call channel_id username is_typing w).2
  | ReqSubscribeToChannelMessages channel_id cb =>
      (SubscribeToChannelMessages.call channel_id cb w).2
  | ReqSubscribeToChannelChanges user_id cb =>
      (SubscribeToChannelChanges.call user_id cb w).2
  | ReqUnsubscribe subscription_id => (Unsubscribe.call subscription_id w).2
  | Deliver fn msg => (apply_adapter fn msg w).2
  end.

Definition run `{!Environment} (reqs : list request) (w : world) : world :=
  foldl (λ w r, issue r w) w reqs.

(** The requests whose [call] begins with [cls._get_new_id()]. *)
Definition allocates (r : request) : bool :=
  match r with
  | ReqConnect | ReqUnsubscribe _ | Deliver _ _ => false
  | _ => true
  end.

(** The correlation ids the Dispatcher was given, in order. *)
Definition correlation_id (e : event) : option string :=
  match e with
  | CallMethod _ id => id
  | CreateSubscription _ id _ => Some id
  | Invoke _ _ => None
  end.
Definition correlation_ids (tr : list event) : list string :=
  omap correlation_id tr.

(** The id the Dispatcher is given is the one written in the message. *)
Definition well_correlated (e : event) : Prop :=
  match e with
  | CallMethod msg (Some id) | CreateSubscription msg id _ =>
      getitem_key msg "id" = Ok (VStr id)
  | _ => True
  end.

(** An environment whose Dispatcher raises [e] on every hand-off. *)
Definition failing (e : exn) : Environment := {|
  call_method_result _ _ _ := Raise e;
  create_subscription_result _ _ _ _ := Raise e;
  callback_result _ _ _ := Ok VNone
|}.

(** * Properties *)

(** ** The hash model against published test vectors *)

Example md5_empty :
  hashlib.md5_hexdigest (encode "") = "d41d8cd98f00b204e9800998ecf8427e".
Proof. vm_compute. reflexivity. Qed.

Example md5_abc :
  hashlib.md5_hexdigest (encode "abc") = "900150983cd24fb0d6963f7d28e17f72".
Proof. vm_compute. reflexivity. Qed.

Example md5_two_blocks :
  hashlib.md5_hexdigest (replicate 64 97)
  = "014842d480b571495a4a0363793f7367".
Proof. vm_compute. reflexivity. Qed.

Example sha256_empty :
  hashlib.sha256_hexdigest (encode "")
  = "e3b0c44298fc1c149afbf4c8996fb92427ae41e4649b934ca495991b7852b855".
Proof. vm_compute. reflexivity. Qed.

Example sha256_abc :
  hashlib.sha256_hexdigest (encode "abc")
  = "ba7816bf8f01cfea414140de5dae2223b00361a396177a9cb410ff61f20015ad".
Proof. vm_compute. reflexivity. Qed.

Example sha256_two_blocks :
  hashlib.sha256_hexdigest (replicate 119 97)
  = "31eba51c313a5c08226adf18d4a359cfdfd8d2e816b13f4af952f7ea6584dcfb".
Proof. vm_compute. reflexivity. Qed.

(** ** Strings *)

Example chars_two_byte :
  chars "hé!" = ["h"; "é"; "!"].
Proof. reflexivity. Qed.

Example pretty_decimal :
  pretty <$> [0; 7; 10; 1234567890123456789012; -5]
  = ["0"; "7"; "10"; "1234567890123456789012"; "-5"].
Proof. reflexivity. Qed.

(** ** The correlation id allocator *)

Lemma get_new_id_spec (w : world) :
  RealtimeRequest._get_new_id w
  = (Ok (pretty (_max_id w + 1)), World (_max_id w + 1) (now w) (trace w)).
Proof. reflexivity. Qed.

(** Only an allocation moves the counter. *)
Lemma exec_step_counter (s : step) (w : world) :
  _max_id (exec_step s w).2
  = _max_id w + match s with Allocate _ => 1 | _ => 0 end.
Proof. destruct s; simpl; lia. Qed.

Lemma exec_from (sched : list step) (w : world) :
  (exec sched w).1
  = pretty <$> seqZ (_max_id w + 1) (Z.of_nat (allocations sched))
  ∧ _max_id (exec sched w).2 = _max_id w + Z.of_nat (allocations sched).
Proof.
  revert w. induction sched as [|s sched IH]; intros w.
  - simpl. split; [reflexivity | lia].
  - cbn [exec].
    destruct (exec_step s w) as [r w1] eqn:Hstep.
    destruct (IH w1) as [Hids Hmax].
    destruct (exec sched w1) as [ids w2]. simpl in Hids, Hmax.
    pose proof (exec_step_counter s w) as Hc. rewrite Hstep in Hc.
    simpl in Hc.
    destruct s as [cls|e|t]; simpl in Hstep; inversion Hstep; subst r w1;
      cbn [allocations fst snd] in *.
    + split; [|lia].
      rewrite (seqZ_cons _ (Z.of_nat (S _))) by lia.
      rewrite fmap_cons. f_equal. rewrite Hids. do 2 f_equal; lia.
    + split; [|lia]. rewrite Hids. do 2 f_equal.
    + split; [|lia]. rewrite Hids. do 2 f_equal.
Qed.

Lemma allocations_replicate (n : nat) (cls : operation) :
  allocations (replicate n (Allocate cls)) = n.
Proof. induction n; simpl; congruence. Qed.

(** Every [call] of the catalog is such a schedule: it allocates exactly one
    id, before anything is handed off, except [Connect] and [Unsubscribe],
    which allocate none; nothing else moves the counter. *)
Lemma calls_allocate_once `{!Environment} (w : world) :
  _max_id (Connect.call w).2 = _max_id w
  ∧ (∀ args, _max_id (Login.call args w).2 = _max_id w + 1)
  ∧ _max_id (GetChannels.call w).2 = _max_id w + 1
  ∧ (∀ text chan kwargs,
       _max_id (SendMessage.call text chan kwargs w).2 = _max_id w + 1)
  ∧ (∀ orig emoji, _max_id (SendReaction.call orig emoji w).2 = _max_id w + 1)
  ∧ (∀ chan user typing,
       _max_id (SendTypingEvent.call chan user typing w).2 = _max_id w + 1)
  ∧ (∀ chan cb,
       _max_id (SubscribeToChannelMessages.call chan cb w).2 = _max_id w + 1)
  ∧ (∀ user cb,
       _max_id (SubscribeToChannelChanges.call user cb w).2 = _max_id w + 1)
  ∧ (∀ sub, _max_id (Unsubscribe.call sub w).2 = _max_id w).
Proof.
  repeat split; intros;
    unfold Connect.call, Login.call, GetChannels.call, SendMessage.call,
      SendReaction.call, SendTypingEvent.call,
      SubscribeToChannelMessages.call, SubscribeToChannelChanges.call,
      Unsubscribe.call, SendMessage._get_request_msg, time.time,
      dispatcher.call_method, dispatcher.create_subscription,
      bind, lift, log, ret;
    rewrite ?get_new_id_spec; simpl;
    repeat match goal with
           | |- context [match ?r with Ok _ => _ | Raise _ => _ end] =>
               destruct r; simpl
           end;
    reflexivity.
Qed.

(** C1. Whatever the schedule -- whichever operation classes allocate, and
    whatever hand-offs and clock ticks come in between -- the ids the
    allocator returns from the initial state are the decimal strings of
    1, 2, ..., N in this order: distinct, strictly increasing, starting at 1.
    In particular this holds of N consecutive invocations. *)
Theorem allocator_ids_increasing_from_one (sched : list step) (t : timestamp) :
  let ids := (exec sched (initial t)).1 in
  let N := allocations sched in
  ids = pretty <$> seqZ 1 (Z.of_nat N)
  ∧ length ids = N
  ∧ NoDup ids
  ∧ (∀ i j a b, (i < j)%nat → ids !! i = Some a → ids !! j = Some b →
       a = pretty (1 + Z.of_nat i) ∧ b = pretty (1 + Z.of_nat j)
       ∧ 1 + Z.of_nat i < 1 + Z.of_nat j)
  ∧ (∀ n cls,
       (exec (replicate n (Allocate cls)) (initial t)).1
       = pretty <$> seqZ 1 (Z.of_nat n)).
Proof.
  intros ids N.
  assert (Hids : ids = pretty <$> seqZ 1 (Z.of_nat N)).
  { subst ids N. destruct (exec_from sched (initial t)) as [-> _].
    reflexivity. }
  split; [exact Hids|]. rewrite Hids.
  split; [by rewrite length_fmap, length_seqZ, Nat2Z.id|].
  split; [apply (NoDup_fmap_2 _), NoDup_seqZ|].
  split.
  - intros i j a b Hij Ha Hb.
    rewrite list_lookup_fmap in Ha, Hb.
    destruct (seqZ 1 (Z.of_nat N) !! i) as [x|] eqn:Hx; [|discriminate].
    destruct (seqZ 1 (Z.of_nat N) !! j) as [y|] eqn:Hy; [|discriminate].
    apply lookup_seqZ in Hx as [-> _]. apply lookup_seqZ in Hy as [-> _].
    simpl in Ha, Hb. inversion Ha. inversion Hb. repeat split. lia.
  - intros n cls.
    destruct (exec_from (replicate n (Allocate cls)) (initial t)) as [-> _].
    by rewrite allocations_replicate.
Qed.


Example allocator_interleaved :
  (exec [Allocate OpLogin;
         HandOff (CallMethod (GetChannels._get_request_msg "1") (Some "1"));
         Allocate OpSendMessage;
         Tick "1700000021.490235";
         Allocate OpSubscribeToChannelChanges]
        (initial "1700000020.606499")).1
  = ["1"; "2"; "3"].
Proof. reflexivity. Qed.

(** ** Reading dict literals *)

Lemma getitem_dict_here (k : string) (v : value) items :
  getitem_key (dict ((k, v) :: items)) k = Ok v.
Proof. unfold dict. simpl. by rewrite lookup_insert_eq. Qed.

Lemma getitem_dict_next (k k' : string) (v : value) items :
  k' ≠ k → getitem_key (dict ((k', v) :: items)) k = getitem_key (dict items) k.
Proof. intros Hne. unfold dict. simpl. by rewrite lookup_insert_ne. Qed.

Ltac read_dict :=
  repeat first
    [ rewrite getitem_dict_here
    | rewrite getitem_dict_next by discriminate ].

Lemma param0_field_single (msg_id : string) (meth : string) (d : gmap string value)
    (k : string) :
  param0_field (dict [("msg", VStr "method"); ("method", VStr meth);
                      ("id", VStr msg_id); ("params", VList [VDict d])]) k
  = getitem_key (VDict d) k.
Proof. unfold param0_field. read_dict. reflexivity. Qed.

(** ** Hexadecimal digests *)

Lemma hex_digit_is_hex (n : Z) : hashlib.is_hex (hashlib.hex_digit n) = true.
Proof.
  unfold hashlib.hex_digit.
  pose proof (Z.mod_pos_bound n 16 ltac:(lia)) as Hb.
  assert (Hk : (Z.to_nat (n mod 16) < 16)%nat) by lia.
  generalize dependent (Z.to_nat (n mod 16)). intros k Hk.
  do 16 (destruct k as [|k]; [vm_compute; reflexivity|]). lia.
Qed.

Lemma hexlify_cons (b : Z) (bs : list Z) :
  hashlib.hexlify (b :: bs)
  = String (hashlib.hex_digit (b / 16))
      (String (hashlib.hex_digit b) (hashlib.hexlify bs)).
Proof. reflexivity. Qed.

Lemma hexlify_length (bs : list Z) :
  String.length (hashlib.hexlify bs) = (2 * length bs)%nat.
Proof.
  induction bs as [|b bs IH]; [reflexivity|].
  rewrite hexlify_cons. simpl. rewrite IH. lia.
Qed.

Lemma hexlify_all_hex (bs : list Z) : all_hex (hashlib.hexlify bs) = true.
Proof.
  induction bs as [|b bs IH]; [reflexivity|].
  rewrite hexlify_cons. unfold all_hex in *. simpl.
  by rewrite !hex_digit_is_hex, IH.
Qed.

Lemma md5_digest_length (bs : list Z) : length (hashlib.md5_digest bs) = 16%nat.
Proof.
  unfold hashlib.md5_digest.
  destruct (foldl _ _ _) as [[[a b] c] d]. reflexivity.
Qed.

Lemma sha256_digest_length (bs : list Z) :
  length (hashlib.sha256_digest bs) = 32%nat.
Proof. reflexivity. Qed.

Lemma str_take_length (n : nat) (s : string) :
  (n ≤ String.length s)%nat → String.length (str_take n s) = n.
Proof.
  unfold str_take. revert s.
  induction n as [|n IH]; intros [|c s] Hn; simpl in *; try lia; try done.
  rewrite IH; lia.
Qed.

Lemma str_take_all_hex (n : nat) (s : string) :
  all_hex s = true → all_hex (str_take n s) = true.
Proof.
  unfold str_take, all_hex. revert s.
  induction n as [|n IH]; intros [|c s]; simpl; try done.
  intros [Hc Hs]%andb_prop. rewrite Hc. simpl. by apply IH.
Qed.

(** ** SendMessage *)

(** The loop over [kwargs.items()] leaves [kwargs] laid over the base
    fields. *)
Lemma merge_kwargs (base kwargs : gmap string value) :
  map_fold (λ key value p, <[key := value]> p) base kwargs = kwargs ∪ base.
Proof.
  apply (map_fold_weak_ind (λ r m, r = m ∪ base)).
  - by rewrite (left_id_L ∅ (∪)).
  - intros k v m r _ ->. by rewrite insert_union_l.
Qed.

Lemma SendMessage_request_msg (msg_id : string) (channel_id msg_text : value)
    (kwargs : gmap string value) (w : world) :
  SendMessage._get_request_msg msg_id channel_id msg_text kwargs w
  = (Ok (dict [("msg", VStr "method");
               ("method", VStr "sendMessage");
               ("id", VStr msg_id);
               ("params",
                VList [VDict (kwargs ∪ SendMessage.base_params
                                         (msg_id +:+ ":" +:+ now w)
                                         channel_id msg_text)])]),
     w).
Proof.
  unfold SendMessage._get_request_msg, bind, time.time, ret.
  by rewrite merge_kwargs.
Qed.

Lemma id_seed_inj (msg_id : string) (t1 t2 : timestamp) :
  msg_id +:+ ":" +:+ t1 = msg_id +:+ ":" +:+ t2 → t1 = t2.
Proof. intros H. by do 2 apply (inj (String.app _)) in H. Qed.

Lemma base_params_id (id_seed : string) (channel_id msg_text : value) :
  SendMessage.base_params id_seed channel_id msg_text !! "_id"
  = Some (VStr (str_take 12 (hashlib.md5_hexdigest (encode id_seed)))).
Proof. unfold SendMessage.base_params. simpl. by rewrite lookup_insert_eq. Qed.

(** C5, as the code has it.  When the caller's extra fields do not shadow it,
    the [_id] field of the outgoing message is the first 12 characters of the
    hexadecimal MD5 digest of the correlation id, a colon and the timestamp;
    it is 12 hexadecimal characters long and is the same whenever the
    correlation id and the timestamp are.  Distinct timestamps give distinct
    hash inputs; the truncated digests themselves may coincide. *)
Theorem SendMessage_generated_id (msg_id : string)
    (channel_id msg_text : value) (kwargs : gmap string value) (w : world) :
  kwargs !! "_id" = None →
  ∃ msg h,
    SendMessage._get_request_msg msg_id channel_id msg_text kwargs w
    = (Ok msg, w)
    ∧ param0_field msg "_id" = Ok (VStr h)
    ∧ h = str_take 12 (hashlib.md5_hexdigest
                         (encode (msg_id +:+ ":" +:+ now w)))
    ∧ String.length h = 12%nat
    ∧ all_hex h = true
    ∧ (∀ w', now w' = now w →
         ∃ msg',
           SendMessage._get_request_msg msg_id channel_id msg_text kwargs w'
           = (Ok msg', w')
           ∧ param0_field msg' "_id" = Ok (VStr h))
    ∧ (∀ w', now w' ≠ now w →
         msg_id +:+ ":" +:+ now w' ≠ msg_id +:+ ":" +:+ now w).
Proof.
  intros Hfree.
  assert (Hfield : ∀ w0,
    param0_field
      (dict [("msg", VStr "method"); ("method", VStr "sendMessage");
             ("id", VStr msg_id);
             ("params",
              VList [VDict (kwargs ∪ SendMessage.base_params
                                       (msg_id +:+ ":" +:+ now w0)
                                       channel_id msg_text)])]) "_id"
    = Ok (VStr (str_take 12 (hashlib.md5_hexdigest
                               (encode (msg_id +:+ ":" +:+ now w0)))))).
  { intros w0. rewrite param0_field_single. simpl.
    by rewrite lookup_union_r, base_params_id. }
  eexists _, _. split; [apply SendMessage_request_msg|].
  split; [apply Hfield|]. split; [reflexivity|].
  split.
  { apply str_take_length. unfold hashlib.md5_hexdigest.
    rewrite hexlify_length, md5_digest_length. lia. }
  split; [apply str_take_all_hex, hexlify_all_hex|].
  split.
  - intros w' Hnow. eexists. split; [apply SendMessage_request_msg|].
    rewrite Hfield. by rewrite Hnow.
  - intros w' Hnow Hseed. by apply Hnow, (id_seed_inj msg_id).
Qed.

Lemma SendMessage_generated_id_witness :
  (∅ : gmap string value) !! "_id" = None
  ∧ ∃ msg,
      SendMessage._get_request_msg "1" (VStr "GENERAL") (VStr "hi") ∅
        (initial "1700000020.606499")
      = (Ok msg, initial "1700000020.606499")
      ∧ param0_field msg "_id" = Ok (VStr "96c1bc72d083").
Proof.
  split; [apply lookup_empty|].
  destruct (SendMessage_generated_id "1" (VStr "GENERAL") (VStr "hi") ∅
              (initial "1700000020.606499") (lookup_empty _))
    as (msg & h & Hmsg & Hid & Hh & _).
  exists msg. split; [exact Hmsg|].
  rewrite Hid, Hh. vm_compute. reflexivity.
Defined.

(** C5 as stated fails: the same correlation id with two distinct
    timestamps, less than a second apart, yields the same [_id]. *)
Lemma SendMessage_generated_id_collision :
  let generated t :=
    (SendMessage._get_request_msg "1" (VStr "GENERAL") (VStr "hi") ∅
       (initial t)).1 ≫= λ msg, param0_field msg "_id" in
  ("1700000020.606499" : timestamp) ≠ "1700000021.490235"
  ∧ generated "1700000020.606499" = Ok (VStr "96c1bc72d083")
  ∧ generated "1700000021.490235" = Ok (VStr "96c1bc72d083").
Proof.
  split; [discriminate|]. split; vm_compute; reflexivity.
Qed.

(** C6. The extra fields end up in the single params object: each of them
    is read back verbatim, also under the key of a base field ([_id], [rid],
    [msg]), whose value it replaces; every key the caller did not pass reads
    as in the base object. *)
Theorem SendMessage_extra_fields_overwrite (msg_id : string)
    (channel_id msg_text : value) (kwargs : gmap string value) (w : world) :
  let base :=
    SendMessage.base_params (msg_id +:+ ":" +:+ now w) channel_id msg_text in
  ∃ msg params0,
    SendMessage._get_request_msg msg_id channel_id msg_text kwargs w
    = (Ok msg, w)
    ∧ getitem_key msg "params" = Ok (VList [VDict params0])
    ∧ (∀ k v, kwargs !! k = Some v → param0_field msg k = Ok v)
    ∧ (∀ k, kwargs !! k = None →
         param0_field msg k = getitem_key (VDict base) k)
    ∧ getitem_key (VDict base) "rid" = Ok channel_id
    ∧ getitem_key (VDict base) "msg" = Ok msg_text
    ∧ dom params0 = dom kwargs ∪ {["_id"; "rid"; "msg"]}.
Proof.
  intros base. eexists _, (kwargs ∪ base).
  split; [apply SendMessage_request_msg|].
  split; [by read_dict|].
  split.
  { intros k v Hk. rewrite param0_field_single. simpl.
    by rewrite (lookup_union_Some_l _ _ _ _ Hk). }
  split.
  { intros k Hk. rewrite param0_field_single. simpl.
    by rewrite lookup_union_r. }
  split; [reflexivity|]. split; [reflexivity|].
  rewrite dom_union_L. by f_equal.
Qed.

Example SendMessage_shadowing :
  let kwargs : gmap string value :=
    {["msg" := VStr "shadow"; "alias" := VStr "bot"]} in
  let msg :=
    (SendMessage._get_request_msg "1" (VStr "GENERAL") (VStr "hi") kwargs
       (initial "1700000020.606499")).1 in
  (msg ≫= λ m, param0_field m "msg") = Ok (VStr "shadow")
  ∧ (msg ≫= λ m, param0_field m "alias") = Ok (VStr "bot")
  ∧ (msg ≫= λ m, param0_field m "rid") = Ok (VStr "GENERAL")
  ∧ (msg ≫= λ m, param0_field m "_id") = Ok (VStr "96c1bc72d083").
Proof. repeat split; vm_compute; reflexivity. Qed.

(** ** Login *)

Lemma Login_password_form (msg_id : string) (username : value) (password : string)
    (rest : list value) :
  Login._get_request_msg msg_id (username :: VStr password :: rest)
  = Ok (password_form msg_id username
          (hashlib.sha256_hexdigest (encode password))).
Proof.
  unfold Login._get_request_msg.
  rewrite bool_decide_eq_false_2 by (simpl; lia).
  simpl. by do 2 f_equal.
Qed.

Lemma Login_resume_form (msg_id : string) (token : value) :
  Login._get_request_msg msg_id [token]
  = Ok (dict [("msg", VStr "method"); ("method", VStr "login");
              ("id", VStr msg_id);
              ("params", VList [dict [("resume", token)]])]).
Proof. unfold Login._get_request_msg. simpl. by do 2 f_equal. Qed.

(** The strings of the username/password form: nine keys, three literals,
    and the three arguments. *)
Lemma password_form_strings (msg_id username digest s : string) :
  s ∈ strings_of (password_form msg_id (VStr username) digest)
  ↔ s ∈ ["msg"; "method"; "id"; "params"; "user"; "username"; "password";
         "digest"; "algorithm"; "login"; "sha-256"]
    ∨ s = msg_id ∨ s = username ∨ s = digest.
Proof.
  replace (strings_of (password_form msg_id (VStr username) digest))
    with ["msg"; "method"; "method"; "login"; "id"; msg_id; "params"; "user";
          "username"; username; "password"; "algorithm"; "sha-256"; "digest";
          digest]
    by (vm_compute; reflexivity).
  rewrite !elem_of_cons, !elem_of_nil. tauto.
Qed.

(** C2, as the code has it.  In username/password form the message carries
    the username and, for the password, the field
    [{digest, algorithm: "sha-256"}] whose digest is the hexadecimal SHA-256
    of the password's bytes.  The password enters the message through that
    digest only: every string of the message is a fixed key or literal, the
    correlation id, the username or the digest, and two passwords with the
    same digest build the same message. *)
Theorem Login_password_sent_as_digest (msg_id username password : string) :
  let digest := hashlib.sha256_hexdigest (encode password) in
  ∃ msg,
    Login._get_request_msg msg_id [VStr username; VStr password] = Ok msg
    ∧ param0_field msg "password"
      = Ok (dict [("digest", VStr digest); ("algorithm", VStr "sha-256")])
    ∧ param0_field msg "user" = Ok (dict [("username", VStr username)])
    ∧ String.length digest = 64%nat
    ∧ all_hex digest = true
    ∧ (∀ s, s ∈ strings_of msg
            ↔ s ∈ ["msg"; "method"; "id"; "params"; "user"; "username";
                   "password"; "digest"; "algorithm"; "login"; "sha-256"]
              ∨ s = msg_id ∨ s = username ∨ s = digest)
    ∧ (∀ password',
         hashlib.sha256_hexdigest (encode password') = digest →
         Login._get_request_msg msg_id [VStr username; VStr password']
         = Ok msg).
Proof.
  intros digest.
  assert (Hlen : String.length digest = 64%nat).
  { subst digest. unfold hashlib.sha256_hexdigest.
    by rewrite hexlify_length, sha256_digest_length. }
  assert (Hhex : all_hex digest = true) by apply hexlify_all_hex.
  eexists. split; [apply Login_password_form|]. fold digest.
  split; [unfold param0_field, password_form; by read_dict|].
  split; [unfold param0_field, password_form; by read_dict|].
  split; [exact Hlen|]. split; [exact Hhex|].
  split; [intros s; apply password_form_strings|].
  intros password' Hsame. rewrite Login_password_form. by rewrite Hsame.
Qed.

(** C2 as stated fails: a password equal to the username travels in the
    clear, in the [username] field. *)
Lemma Login_password_equal_to_username_in_clear :
  ∃ msg user,
    Login._get_request_msg "1" [VStr "hunter2"; VStr "hunter2"] = Ok msg
    ∧ param0_field msg "user" = Ok user
    ∧ getitem_key user "username" = Ok (VStr "hunter2")
    ∧ "hunter2" ∈ strings_of msg.
Proof.
  eexists _, _. split; [apply Login_password_form|].
  split; [unfold param0_field, password_form; by read_dict|].
  split; [by read_dict|].
  apply password_form_strings. right. right. by left.
Qed.

Lemma Login_parse_result_id (response : value) :
  (∀ v, Login._parse response = Ok v ↔ result_id response = Some v)
  ∧ ((∃ e, Login._parse response = Raise e) ↔ result_id response = None).
Proof.
  unfold Login._parse, result_id.
  destruct response as [| | | | | |d]; simpl;
    try (split; [intros v; split; discriminate | split; eauto]).
  destruct (d !! "result") as [result|]; simpl;
    [|split; [intros v; split; discriminate | split; eauto]].
  destruct result as [| | | | | |r]; simpl;
    try (split; [intros v; split; discriminate | split; eauto]).
  destruct (r !! "id") as [x|]; simpl.
  - split; [intros v; split; congruence|].
    split; [intros [e He]; discriminate | discriminate].
  - split; [intros v; split; discriminate | split; eauto].
Qed.

(** C3. Once the request has been built and the Dispatcher has delivered a
    raw response, [Login.call] returns what parsing the response gives: the
    value of its [result.id] field when the field is there, and an error
    raised by the access when it is not. *)
Theorem Login_call_returns_result_id `{!Environment} (args : list value)
    (w w1 : world) (msg_id : string) (msg response : value) :
  RealtimeRequest._get_new_id w = (Ok msg_id, w1) →
  Login._get_request_msg msg_id args = Ok msg →
  call_method_result w1 msg (Some msg_id) = Ok response →
  (Login.call args w).1 = Login._parse response
  ∧ (∀ v, (Login.call args w).1 = Ok v ↔ result_id response = Some v)
  ∧ ((∃ e, (Login.call args w).1 = Raise e) ↔ result_id response = None).
Proof.
  intros Hid Hmsg Hreply.
  assert (Hcall : (Login.call args w).1 = Login._parse response).
  { unfold Login.call, bind. rewrite Hid. unfold lift at 1. rewrite Hmsg.
    unfold dispatcher.call_method, bind, log, lift. simpl.
    by rewrite Hreply. }
  rewrite Hcall. split; [reflexivity|]. apply Login_parse_result_id.
Qed.

Lemma Login_call_returns_result_id_witness :
  let response :=
    dict [("msg", VStr "result"); ("id", VStr "1");
          ("result", dict [("id", VStr "u42"); ("token", VStr "t0k")])] in
  let E := answering response in
  let args := [VStr "alice"; VStr "s3cret"] in
  let msg :=
    password_form "1" (VStr "alice")
      (hashlib.sha256_hexdigest (encode "s3cret")) in
  let w1 := World 1 "1700000020.606499" [] in
  RealtimeRequest._get_new_id (initial "1700000020.606499") = (Ok "1", w1)
  ∧ Login._get_request_msg "1" args = Ok msg
  ∧ call_method_result w1 msg (Some "1") = Ok response
  ∧ (Login.call args (initial "1700000020.606499")).1 = Ok (VStr "u42").
Proof.
  intros response E args msg w1.
  assert (H1 : RealtimeRequest._get_new_id (initial "1700000020.606499")
               = (Ok "1", w1)) by reflexivity.
  assert (H2 : Login._get_request_msg "1" args = Ok msg)
    by apply Login_password_form.
  assert (H3 : call_method_result w1 msg (Some "1") = Ok response)
    by reflexivity.
  split; [exact H1|]. split; [exact H2|]. split; [exact H3|].
  destruct (Login_call_returns_result_id args _ w1 "1" msg response
              H1 H2 H3) as (_ & Hok & _).
  apply Hok. reflexivity.
Defined.

(** C10. An argument list whose length is not 1 is never read as a resume
    token: whenever a message is built from it, it is the username/password
    form.  With two or more arguments that form is built from the first two
    (a username and a [str] password), whatever follows them; with none,
    [args[1]] raises an index error, and [Login.call] propagates it with
    nothing handed to the Dispatcher. *)
Theorem Login_args_other_than_one :
  (∀ msg_id args msg,
     length args ≠ 1%nat →
     Login._get_request_msg msg_id args = Ok msg →
     ∃ username password rest,
       args = username :: VStr password :: rest
       ∧ msg = password_form msg_id username
                 (hashlib.sha256_hexdigest (encode password)))
  ∧ (∀ msg_id username password rest,
       Login._get_request_msg msg_id (username :: VStr password :: rest)
       = Ok (password_form msg_id username
               (hashlib.sha256_hexdigest (encode password))))
  ∧ (∀ msg_id, Login._get_request_msg msg_id [] = Raise IndexError)
  ∧ (∀ (E : Environment) (w : world),
       Login.call [] w
       = (Raise IndexError, World (_max_id w + 1) (now w) (trace w))).
Proof.
  split; [|split; [|split]].
  - intros msg_id [|username [|password rest]] msg Hlen Hmsg.
    + discriminate.
    + by destruct Hlen.
    + destruct password as [| | | |password| |]; try discriminate.
      rewrite Login_password_form in Hmsg. inversion Hmsg. eauto.
  - apply Login_password_form.
  - reflexivity.
  - reflexivity.
Qed.

Example Login_extra_arguments_ignored :
  Login._get_request_msg "1" [VStr "alice"; VStr "s3cret"; VStr "extra"]
  = Login._get_request_msg "1" [VStr "alice"; VStr "s3cret"].
Proof. by rewrite !Login_password_form. Qed.

(** ** GetChannels *)

Lemma mapM_res_cons {A B} (f : A → res B) (x : A) (l : list A) :
  mapM f (x :: l) = y ← f x; k ← mapM f l; mret (y :: k).
Proof. reflexivity. Qed.

Lemma channel_rows (rs : list value) (rows : list (value * value)) :
  Forall2 channel_record rs rows →
  mapM (λ r, id ← getitem_key r "_id"; t ← getitem_key r "t"; Ok (id, t)) rs
  = Ok rows.
Proof.
  induction 1 as [|r [id t] rs rows (m & -> & Hid & Ht) _ IH];
    [reflexivity|].
  rewrite mapM_res_cons, IH. simpl in *. by rewrite Hid, Ht.
Qed.

(** C4. When the [result] of the response is a list of records carrying
    [_id] and [t], parsing yields their [(_id, t)] pairs, one per record and
    in the order of the list. *)
Theorem GetChannels_parse_in_order (d : gmap string value)
    (rs : list value) (rows : list (value * value)) :
  d !! "result" = Some (VList rs) →
  Forall2 channel_record rs rows →
  GetChannels._parse (VDict d) = Ok rows.
Proof.
  intros Hresult Hrows. unfold GetChannels._parse. simpl.
  rewrite Hresult. simpl. by apply channel_rows.
Qed.

Lemma GetChannels_parse_in_order_witness :
  let a := dict [("_id", VStr "a"); ("t", VStr "c")] in
  let b := dict [("_id", VStr "b"); ("t", VStr "p")] in
  let d : gmap string value := {["result" := VList [a; b]]} in
  let rows := [(VStr "a", VStr "c"); (VStr "b", VStr "p")] in
  d !! "result" = Some (VList [a; b])
  ∧ Forall2 channel_record [a; b] rows
  ∧ GetChannels._parse (dict [("result", VList [a; b])]) = Ok rows.
Proof.
  intros a b d rows.
  assert (H1 : d !! "result" = Some (VList [a; b])) by reflexivity.
  assert (H2 : Forall2 channel_record [a; b] rows).
  { repeat constructor; eexists; (split; [reflexivity|]); by split. }
  split; [exact H1|]. split; [exact H2|].
  exact (GetChannels_parse_in_order d [a; b] rows H1 H2).
Defined.

(** ** SendTypingEvent *)

(** C7, as the code has it.  The message is a [method] message named
    [stream-notify-room] whose params are the topic [channel_id + "/typing"],
    the username and the typing flag, in this order.  It is handed to
    [call_method] together with its correlation id, so the Dispatcher awaits
    the reply; the reply is not parsed: the call returns [None], or raises
    what the Dispatcher raised. *)
Theorem SendTypingEvent_call_awaits_unparsed_reply `{!Environment}
    (channel_id : string) (username is_typing : value) (w : world) :
  let msg_id := pretty (_max_id w + 1) in
  let msg :=
    SendTypingEvent._get_request_msg msg_id channel_id username is_typing in
  let w1 := World (_max_id w + 1) (now w) (trace w) in
  let out := SendTypingEvent.call channel_id username is_typing w in
  getitem_key msg "msg" = Ok (VStr "method")
  ∧ getitem_key msg "method" = Ok (VStr "stream-notify-room")
  ∧ getitem_key msg "id" = Ok (VStr msg_id)
  ∧ getitem_key msg "params"
    = Ok (VList [VStr (channel_id +:+ "/typing"); username; is_typing])
  ∧ trace out.2 = trace w ++ [CallMethod msg (Some msg_id)]
  ∧ dispatcher.awaits_reply (CallMethod msg (Some msg_id)) = true
  ∧ out.1 = (call_method_result w1 msg (Some msg_id) ≫= λ _, Ok VNone).
Proof.
  intros msg_id msg w1 out. subst msg.
  unfold SendTypingEvent._get_request_msg.
  repeat (split; [by read_dict|]).
  subst out. unfold SendTypingEvent.call, bind.
  rewrite get_new_id_spec. fold msg_id w1.
  unfold dispatcher.call_method, bind, log, lift, ret. simpl.
  destruct (call_method_result w1 _ _); by repeat split.
Qed.

(** C7 as stated fails: the hand-off carries the correlation id ["1"], so it
    is not fire-and-forget. *)
Lemma SendTypingEvent_passes_correlation_id :
  let E := answering VNone in
  let out :=
    SendTypingEvent.call "GENERAL" (VStr "alice") (VBool true)
      (initial "1700000020.606499") in
  trace out.2
  = [CallMethod
       (dict [("msg", VStr "method");
              ("method", VStr "stream-notify-room");
              ("id", VStr "1");
              ("params", VList [VStr "GENERAL/typing"; VStr "alice";
                                VBool true])])
       (Some "1")]
  ∧ ¬ fire_and_forget (trace out.2).
Proof.
  intros E out.
  assert (Htrace : trace out.2
    = [CallMethod
         (dict [("msg", VStr "method");
                ("method", VStr "stream-notify-room");
                ("id", VStr "1");
                ("params", VList [VStr "GENERAL/typing"; VStr "alice";
                                  VBool true])])
         (Some "1")]) by reflexivity.
  split; [exact Htrace|]. rewrite Htrace.
  intros Hff. apply Forall_cons in Hff as [Hff _]. discriminate.
Qed.

(** [SendReaction.call], by contrast, passes no id. *)
Lemma SendReaction_fire_and_forget `{!Environment} (orig_msg_id emoji : value)
    (w : world) :
  fire_and_forget [CallMethod
                     (SendReaction._get_request_msg
                        (pretty (_max_id w + 1)) orig_msg_id emoji) None]
  ∧ trace (SendReaction.call orig_msg_id emoji w).2
    = trace w ++ [CallMethod
                    (SendReaction._get_request_msg
                       (pretty (_max_id w + 1)) orig_msg_id emoji) None].
Proof.
  split; [by repeat constructor|].
  unfold SendReaction.call, bind. rewrite get_new_id_spec.
  unfold dispatcher.call_method, bind, log, lift, ret. simpl.
  by destruct (call_method_result _ _ _).
Qed.

(** ** The subscription adapters *)

Lemma eq_str_true (v : value) (s : string) :
  eq_str v s = true ↔ v = VStr s.
Proof.
  destruct v; simpl; try (split; discriminate).
  rewrite bool_decide_eq_true. split; congruence.
Qed.

Lemma invoke_trace `{!Environment} (cb : callback) (args : list value)
    (w : world) :
  trace (invoke cb args w).2 = trace w ++ [Invoke cb args].
Proof.
  reflexivity.
Qed.

(** C8. On a push event whose [fields.args] list begins with ["removed"] the
    adapter returns [None] and leaves the world as it was: no callback runs.
    On any other first element, with a second element carrying [_id] and
    [t], the adapter is one invocation of the callback on that pair. *)
Theorem ChannelChanges_adapter `{!Environment} (cb : callback)
    (msg first : value) (rest : list value) (w : world) :
  push_event msg (first :: rest) →
  let fn := apply_adapter (SubscribeToChannelChanges._wrap cb) in
  (first = VStr "removed" → fn msg w = (Ok VNone, w))
  ∧ (first ≠ VStr "removed" →
     ∀ second rest' channel_id channel_type,
       rest = second :: rest' →
       channel_record second (channel_id, channel_type) →
       fn msg w = invoke cb [channel_id; channel_type] w
       ∧ trace (fn msg w).2
         = trace w ++ [Invoke cb [channel_id; channel_type]]).
Proof.
  intros (m & f & -> & Hfields & Hargs) fn. subst fn.
  unfold apply_adapter, SubscribeToChannelChanges._wrap,
    SubscribeToChannelChanges.fn.
  unfold bind, lift. simpl. rewrite Hfields. simpl. rewrite Hargs. simpl.
  split.
  - intros ->. reflexivity.
  - intros Hfirst second rest' channel_id channel_type ->
      (s & -> & Hid & Ht).
    destruct (eq_str first "removed") eqn:Heq.
    { by apply eq_str_true in Heq. }
    simpl in *. rewrite Hid, Ht.
    split; [reflexivity | apply invoke_trace].
Qed.

Lemma ChannelChanges_adapter_witness :
  let E := answering VNone in
  let event args :=
    dict [("msg", VStr "changed");
          ("fields", dict [("eventName", VStr "u42/rooms-changed");
                           ("args", VList args)])] in
  let gone := [VStr "removed"; dict [("_id", VStr "x")]] in
  let added := [VStr "added"; dict [("_id", VStr "x"); ("t", VStr "p")]] in
  let w := initial "1700000020.606499" in
  let fn := apply_adapter (SubscribeToChannelChanges._wrap "on_change") in
  push_event (event gone) gone
  ∧ push_event (event added) added
  ∧ fn (event gone) w = (Ok VNone, w)
  ∧ trace (fn (event added) w).2
    = [Invoke "on_change" [VStr "x"; VStr "p"]].
Proof.
  intros E event gone added w fn.
  assert (Hgone : push_event (event gone) gone).
  { eexists _, _. split; [reflexivity|]. by split. }
  assert (Hadded : push_event (event added) added).
  { eexists _, _. split; [reflexivity|]. by split. }
  split; [exact Hgone|]. split; [exact Hadded|]. split.
  - destruct (ChannelChanges_adapter "on_change" _ _ _ w Hgone)
      as [Hremoved _].
    by apply Hremoved.
  - destruct (ChannelChanges_adapter "on_change" _ _ _ w Hadded)
      as [_ Hother].
    apply (Hother ltac:(discriminate) _ [] (VStr "x") (VStr "p") eq_refl).
    eexists. split; [reflexivity|]. by split.
Defined.

(** C9. On a push event whose [fields.args] list begins with a message body
    carrying [_id], [rid] and [u._id], the adapter is one invocation of the
    callback on [(rid, u._id, _id, body)]. *)
Theorem ChannelMessages_adapter `{!Environment} (cb : callback)
    (msg message : value) (rest : list value) (w : world)
    (msg_id channel_id u sender_id : value) :
  push_event msg (message :: rest) →
  getitem_key message "_id" = Ok msg_id →
  getitem_key message "rid" = Ok channel_id →
  getitem_key message "u" = Ok u →
  getitem_key u "_id" = Ok sender_id →
  let fn := apply_adapter (SubscribeToChannelMessages._wrap cb) in
  fn msg w = invoke cb [channel_id; sender_id; msg_id; message] w
  ∧ trace (fn msg w).2
    = trace w ++ [Invoke cb [channel_id; sender_id; msg_id; message]].
Proof.
  intros (m & f & -> & Hfields & Hargs) Hid Hrid Hu Hsender fn. subst fn.
  unfold apply_adapter, SubscribeToChannelMessages._wrap,
    SubscribeToChannelMessages.fn.
  unfold bind, lift. simpl. rewrite Hfields. simpl. rewrite Hargs. simpl.
  rewrite Hid, Hrid, Hu, Hsender.
  split; [reflexivity | apply invoke_trace].
Qed.

Lemma ChannelMessages_adapter_witness :
  let E := answering VNone in
  let u := dict [("_id", VStr "u1")] in
  let message :=
    dict [("_id", VStr "m1"); ("rid", VStr "r1"); ("u", u)] in
  let event :=
    dict [("msg", VStr "changed");
          ("fields", dict [("eventName", VStr "r1");
                           ("args", VList [message])])] in
  let w := initial "1700000020.606499" in
  let fn := apply_adapter (SubscribeToChannelMessages._wrap "on_message") in
  push_event event [message]
  ∧ getitem_key message "_id" = Ok (VStr "m1")
  ∧ getitem_key message "rid" = Ok (VStr "r1")
  ∧ getitem_key message "u" = Ok u
  ∧ getitem_key u "_id" = Ok (VStr "u1")
  ∧ trace (fn event w).2
    = [Invoke "on_message" [VStr "r1"; VStr "u1"; VStr "m1"; message]].
Proof.
  intros E u message event w fn.
  assert (Hev : push_event event [message]).
  { eexists _, _. split; [reflexivity|]. by split. }
  split; [exact Hev|]. repeat (split; [reflexivity|]).
  apply (ChannelMessages_adapter "on_message" event message [] w
           (VStr "m1") (VStr "r1") u (VStr "u1") Hev
           eq_refl eq_refl eq_refl eq_refl).
Defined.

(** An event of another shape raises the access error and reaches no
    callback. *)
Lemma ChannelMessages_adapter_no_body `{!Environment} (cb : callback)
    (msg : value) (w : world) :
  push_event msg [] →
  apply_adapter (SubscribeToChannelMessages._wrap cb) msg w
  = (Raise IndexError, w).
Proof.
  intros (m & f & -> & Hfields & Hargs).
  unfold apply_adapter, SubscribeToChannelMessages._wrap,
    SubscribeToChannelMessages.fn, bind, lift.
  simpl. rewrite Hfields. simpl. by rewrite Hargs.
Qed.

Lemma ChannelChanges_adapter_no_second `{!Environment} (cb : callback)
    (msg first : value) (w : world) :
  push_event msg [first] →
  first ≠ VStr "removed" →
  apply_adapter (SubscribeToChannelChanges._wrap cb) msg w
  = (Raise IndexError, w).
Proof.
  intros (m & f & -> & Hfields & Hargs) Hfirst.
  unfold apply_adapter, SubscribeToChannelChanges._wrap,
    SubscribeToChannelChanges.fn, bind, lift.
  simpl. rewrite Hfields. simpl. rewrite Hargs. simpl.
  destruct (eq_str first "removed") eqn:Heq; [|reflexivity].
  by apply eq_str_true in Heq.
Qed.

(** ** Unsubscribe *)

Example Unsubscribe_request_msg :
  Unsubscribe._get_request_msg (VStr "7")
  = dict [("msg", VStr "unsub"); ("id", VStr "7")].
Proof. reflexivity. Qed.

(** * Further properties of the catalog *)

(** ** Login: outcomes of the builder and of the call *)

(** X1. What the Login builder does with each argument list: none raises
    [IndexError]; one is sent verbatim as the resume token, unhashed and
    whatever its type; two or more give the username/password form when the
    second is a [str] and raise [AttributeError] when it is not. *)
Theorem Login_request_msg_outcomes (msg_id : string) (args : list value) :
  Login._get_request_msg msg_id args
  = match args with
    | [] => Raise IndexError
    | [token] =>
        Ok (dict [("msg", VStr "method"); ("method", VStr "login");
                  ("id", VStr msg_id);
                  ("params", VList [dict [("resume", token)]])])
    | username :: VStr password :: _ =>
        Ok (password_form msg_id username
              (hashlib.sha256_hexdigest (encode password)))
    | _ :: _ :: _ => Raise AttributeError
    end.
Proof.
  destruct args as [|username [|password rest]].
  - reflexivity.
  - apply Login_resume_form.
  - destruct password; first [apply Login_password_form | reflexivity].
Qed.

Lemma getitem_key_Ok (v x : value) (k : string) :
  getitem_key v k = Ok x ↔ ∃ d, v = VDict d ∧ d !! k = Some x.
Proof.
  split.
  - destruct v as [| | | | | |d]; simpl; try discriminate.
    destruct (d !! k) eqn:Hk; [|discriminate]. intros [= ->]. eauto.
  - intros (d & -> & Hk). simpl. by rewrite Hk.
Qed.

Lemma Login_request_msg_id (msg_id : string) (args : list value)
    (msg : value) :
  Login._get_request_msg msg_id args = Ok msg →
  getitem_key msg "id" = Ok (VStr msg_id).
Proof.
  destruct args as [|username [|password rest]].
  - discriminate.
  - rewrite Login_resume_form. intros [= <-]. by read_dict.
  - destruct password; try discriminate.
    rewrite Login_password_form. intros [= <-].
    unfold password_form. by read_dict.
Qed.

(** X2. When the builder raises, [Login.call] raises the same error; the
    Dispatcher is given nothing, and the id allocated for the call is spent:
    the counter stays advanced. *)
Theorem Login_call_builder_failure `{!Environment} (args : list value)
    (w : world) (e : exn) :
  Login._get_request_msg (pretty (_max_id w + 1)) args = Raise e →
  Login.call args w = (Raise e, World (_max_id w + 1) (now w) (trace w)).
Proof.
  intros Hmsg. unfold Login.call, bind. rewrite get_new_id_spec.
  unfold lift at 1. by rewrite Hmsg.
Qed.

Lemma Login_call_builder_failure_witness :
  let E := answering VNone in
  let args := [VStr "alice"; VInt 1234] in
  let w := World 6 "1700000020.606499" [] in
  Login._get_request_msg (pretty (_max_id w + 1)) args = Raise AttributeError
  ∧ Login.call args w
    = (Raise AttributeError, World 7 "1700000020.606499" []).
Proof.
  intros E args w.
  assert (H1 : Login._get_request_msg (pretty (_max_id w + 1)) args
               = Raise AttributeError) by reflexivity.
  split; [exact H1|].
  exact (Login_call_builder_failure args w AttributeError H1).
Defined.

(** ** Errors of the Dispatcher *)

Ltac run_call :=
  unfold Connect.call, Login.call, GetChannels.call, SendMessage.call,
    SendReaction.call, SendTypingEvent.call,
    SubscribeToChannelMessages.call, SubscribeToChannelChanges.call,
    Unsubscribe.call, bind;
  rewrite ?get_new_id_spec, ?SendMessage_request_msg;
  unfold dispatcher.call_method, dispatcher.create_subscription,
    bind, lift, log, ret; simpl.

(** X3. An error raised by the Dispatcher comes out of every call of the
    catalog unchanged: no call catches it, and the two parsing calls do not
    parse. *)
Theorem calls_propagate_dispatcher_error `{!Environment} (e : exn)
    (w : world) :
  (∀ w' msg id, call_method_result w' msg id = Raise e) →
  (∀ w' msg id fn, create_subscription_result w' msg id fn = Raise e) →
  (Connect.call w).1 = Raise e
  ∧ (∀ args msg,
       Login._get_request_msg (pretty (_max_id w + 1)) args = Ok msg →
       (Login.call args w).1 = Raise e)
  ∧ (GetChannels.call w).1 = Raise e
  ∧ (∀ text chan kwargs, (SendMessage.call text chan kwargs w).1 = Raise e)
  ∧ (∀ orig emoji, (SendReaction.call orig emoji w).1 = Raise e)
  ∧ (∀ chan user typing,
       (SendTypingEvent.call chan user typing w).1 = Raise e)
  ∧ (∀ chan cb, (SubscribeToChannelMessages.call chan cb w).1 = Raise e)
  ∧ (∀ user cb, (SubscribeToChannelChanges.call user cb w).1 = Raise e)
  ∧ (∀ sub, (Unsubscribe.call sub w).1 = Raise e).
Proof.
  intros Hcall Hsub.
  repeat split; intros; run_call; rewrite ?Hcall, ?Hsub; try reflexivity.
  unfold lift. rewrite H0. simpl. by rewrite Hcall.
Qed.

Lemma calls_propagate_dispatcher_error_witness :
  let E := failing (ExternalError "ConnectionClosed") in
  let e := ExternalError "ConnectionClosed" in
  let w := initial "1700000020.606499" in
  (∀ w' msg id, call_method_result w' msg id = Raise e)
  ∧ (∀ w' msg id fn, create_subscription_result w' msg id fn = Raise e)
  ∧ (GetChannels.call w).1 = Raise e
  ∧ (SubscribeToChannelChanges.call "u42" "on_change" w).1 = Raise e.
Proof.
  intros E e w.
  assert (H1 : ∀ w' msg id, call_method_result w' msg id = Raise e)
    by reflexivity.
  assert (H2 : ∀ w' msg id fn,
             create_subscription_result w' msg id fn = Raise e)
    by reflexivity.
  split; [exact H1|]. split; [exact H2|].
  destruct (calls_propagate_dispatcher_error e w H1 H2)
    as (_ & _ & Hget & _ & _ & _ & _ & Hsub & _).
  split; [exact Hget | apply Hsub].
Defined.

(** ** GetChannels: what parsing accepts and what it raises *)

Lemma channel_rows_inv (rs : list value) (rows : list (value * value)) :
  mapM (λ r, id ← getitem_key r "_id"; t ← getitem_key r "t"; Ok (id, t)) rs
  = Ok rows →
  Forall2 channel_record rs rows.
Proof.
  revert rows. induction rs as [|r rs IH]; intros rows.
  - intros [= <-]. constructor.
  - rewrite mapM_res_cons.
    destruct (getitem_key r "_id") as [id|] eqn:Hid; [|discriminate].
    destruct (getitem_key r "t") as [t|] eqn:Ht; [|discriminate].
    simpl.
    destruct (mapM _ rs) as [rows'|] eqn:Hrest; [|discriminate].
    simpl. intros [= <-].
    constructor; [|by apply IH].
    apply getitem_key_Ok in Hid as (d & -> & Hid).
    apply getitem_key_Ok in Ht as (d' & [= <-] & Ht).
    by exists d.
Qed.

Lemma channel_rows_raise (rs : list value) (e : exn) :
  mapM (λ r, id ← getitem_key r "_id"; t ← getitem_key r "t"; Ok (id, t)) rs
  = Raise e →
  ∃ r, r ∈ rs ∧ ∀ row, ¬ channel_record r row.
Proof.
  revert e. induction rs as [|r rs IH]; intros e; [discriminate|].
  rewrite mapM_res_cons.
  destruct (getitem_key r "_id") as [id|] eqn:Hid.
  - destruct (getitem_key r "t") as [t|] eqn:Ht.
    + simpl. destruct (mapM _ rs) as [rows'|e'] eqn:Hrest; [discriminate|].
      intros _. destruct (IH e' eq_refl) as (r' & Hr' & Hnone).
      exists r'. split; [by right | exact Hnone].
    + intros _. exists r. split; [by left|].
      intros row (m & -> & _ & Hrow). simpl in Ht. by rewrite Hrow in Ht.
  - intros _. exists r. split; [by left|].
    intros row (m & -> & Hrow & _). simpl in Hid. by rewrite Hrow in Hid.
Qed.

(** X4. On a response whose [result] is a list, parsing succeeds exactly
    when every element is a record carrying [_id] and [t], and then returns
    exactly their pairs: one element without them makes the whole parse
    raise, no partial list is returned. *)
Theorem GetChannels_parse_all_or_nothing (d : gmap string value)
    (rs : list value) :
  d !! "result" = Some (VList rs) →
  (∀ rows, GetChannels._parse (VDict d) = Ok rows
           ↔ Forall2 channel_record rs rows)
  ∧ ((∃ e, GetChannels._parse (VDict d) = Raise e)
     ↔ ∃ r, r ∈ rs ∧ ∀ row, ¬ channel_record r row).
Proof.
  intros Hresult.
  assert (Hiff : ∀ rows, GetChannels._parse (VDict d) = Ok rows
                         ↔ Forall2 channel_record rs rows).
  { intros rows. unfold GetChannels._parse. simpl. rewrite Hresult. simpl.
    split; [apply channel_rows_inv | apply channel_rows]. }
  split; [exact Hiff|]. split.
  - intros [e He]. unfold GetChannels._parse in He. simpl in He.
    rewrite Hresult in He. simpl in He. by apply channel_rows_raise in He.
  - intros (r & Hr & Hnone).
    destruct (GetChannels._parse (VDict d)) as [rows|e]; [|eauto].
    pose proof (proj1 (Hiff rows) eq_refl) as Hrows.
    apply list_elem_of_lookup in Hr as [i Hi].
    destruct (Forall2_lookup_l _ _ _ _ _ Hrows Hi) as (row & _ & Hrow).
    by destruct (Hnone row).
Qed.

Lemma GetChannels_parse_all_or_nothing_witness :
  let good := dict [("_id", VStr "a"); ("t", VStr "c")] in
  let bad := dict [("_id", VStr "b")] in
  let d : gmap string value := {["result" := VList [good; bad]]} in
  d !! "result" = Some (VList [good; bad])
  ∧ ∃ e, GetChannels._parse (VDict d) = Raise e.
Proof.
  intros good bad d.
  assert (H1 : d !! "result" = Some (VList [good; bad])) by reflexivity.
  split; [exact H1|].
  apply (GetChannels_parse_all_or_nothing d [good; bad] H1).
  exists bad. split; [by right; left|].
  intros row (m & [= <-] & _ & Ht). discriminate.
Defined.

(** X5. A [result] that is not a list: a missing one raises [KeyError]; a
    number, a boolean or [None] raises [TypeError]; a dict or a [str] is
    iterated like a list, so an empty one parses to the empty list while a
    non-empty one raises [TypeError] at its first key or character. *)
Theorem GetChannels_parse_result_not_a_list (d : gmap string value) :
  (d !! "result" = None → GetChannels._parse (VDict d) = Raise KeyError)
  ∧ (∀ v, d !! "result" = Some v →
       match v with
       | VNone | VBool _ | VInt _ | VFloat _ =>
           GetChannels._parse (VDict d) = Raise TypeError
       | VDict m =>
           GetChannels._parse (VDict d)
           = if decide (m = ∅) then Ok [] else Raise TypeError
       | VStr s =>
           GetChannels._parse (VDict d)
           = if decide (chars s = []) then Ok [] else Raise TypeError
       | VList _ => True
       end)
  ∧ chars "" = [].
Proof.
  split; [|split; [|reflexivity]].
  - intros Hresult. unfold GetChannels._parse. simpl. by rewrite Hresult.
  - intros v Hresult. unfold GetChannels._parse. simpl. rewrite Hresult.
    destruct v as [| | | |s| |m]; simpl; try reflexivity.
    + destruct (chars s) as [|c cs]; [reflexivity|].
      rewrite decide_False by done. reflexivity.
    + destruct (decide (m = ∅)) as [->|Hne]; [reflexivity|].
      destruct (map_to_list m) as [|[k x] l] eqn:Hl.
      { by apply map_to_list_empty_iff in Hl. }
      reflexivity.
Qed.

(** X6. [GetChannels.call] end to end: it sends one [rooms/get] request with
    empty params under a fresh id, awaits the reply under that same id, and
    returns what parsing the reply gives; a malformed reply makes it raise
    after the request has gone out. *)
Theorem GetChannels_call_end_to_end `{!Environment} (w : world)
    (response : value) :
  let msg_id := pretty (_max_id w + 1) in
  let msg := GetChannels._get_request_msg msg_id in
  call_method_result (World (_max_id w + 1) (now w) (trace w)) msg
    (Some msg_id) = Ok response →
  GetChannels.call w
  = (GetChannels._parse response,
     World (_max_id w + 1) (now w)
       (trace w ++ [CallMethod msg (Some msg_id)]))
  ∧ getitem_key msg "method" = Ok (VStr "rooms/get")
  ∧ getitem_key msg "params" = Ok (VList [])
  ∧ getitem_key msg "id" = Ok (VStr msg_id).
Proof.
  intros msg_id msg Hreply. split.
  - run_call. fold msg_id msg. by rewrite Hreply.
  - subst msg. unfold GetChannels._get_request_msg.
    repeat split; by read_dict.
Qed.

Lemma GetChannels_call_end_to_end_witness :
  let response :=
    dict [("msg", VStr "result"); ("id", VStr "1");
          ("result", VList [dict [("_id", VStr "GENERAL"); ("t", VStr "c")];
                            dict [("_id", VStr "dm7"); ("t", VStr "d")]])] in
  let E := answering response in
  let w := initial "1700000020.606499" in
  call_method_result (World 1 "1700000020.606499" [])
    (GetChannels._get_request_msg "1") (Some "1") = Ok response
  ∧ (GetChannels.call w).1
    = Ok [(VStr "GENERAL", VStr "c"); (VStr "dm7", VStr "d")].
Proof.
  intros response E w.
  assert (H1 : call_method_result (World 1 "1700000020.606499" [])
                 (GetChannels._get_request_msg "1") (Some "1") = Ok response)
    by reflexivity.
  split; [exact H1|].
  destruct (GetChannels_call_end_to_end w response H1) as [-> _].
  reflexivity.
Defined.

(** ** The adapters on arbitrary events *)

Lemma getitem_key_errors (v : value) (k : string) (e : exn) :
  getitem_key v k = Raise e → e ∈ [KeyError; IndexError; TypeError].
Proof.
  destruct v as [| | | | | |d]; simpl; try (intros [= <-]; set_solver).
  destruct (d !! k); [discriminate|]. intros [= <-]. set_solver.
Qed.

Lemma getitem_idx_errors (v : value) (i : nat) (e : exn) :
  getitem_idx v i = Raise e → e ∈ [KeyError; IndexError; TypeError].
Proof.
  destruct v as [| | | |s|l|d]; simpl; try (intros [= <-]; set_solver).
  - destruct (chars s !! i); [discriminate|]. intros [= <-]. set_solver.
  - destruct (l !! i); [discriminate|]. intros [= <-]. set_solver.
Qed.

(** Indexing gives a dict only out of a list. *)
Lemma getitem_idx_dict (v : value) (i : nat) (m : gmap string value) :
  getitem_idx v i = Ok (VDict m) → ∃ l, v = VList l ∧ l !! i = Some (VDict m).
Proof.
  destruct v as [| | | |s|l|d]; simpl; try discriminate.
  - destruct (chars s !! i); discriminate.
  - destruct (l !! i) eqn:Hi; [|discriminate]. intros [= ->]. eauto.
Qed.

(** X7. The message adapter on any event whatsoever: either the event has
    the expected shape, and the callback is invoked exactly once on
    [(rid, u._id, _id, body)]; or the adapter raises an access error
    ([KeyError], [IndexError] or [TypeError]) and nothing happens.  It never
    returns without invoking, and never touches the id counter. *)
Theorem ChannelMessages_adapter_total `{!Environment} (cb : callback)
    (msg : value) (w : world) :
  let out := apply_adapter (SubscribeToChannelMessages._wrap cb) msg w in
  (∃ message rest msg_id channel_id u sender_id,
      push_event msg (message :: rest)
      ∧ getitem_key message "_id" = Ok msg_id
      ∧ getitem_key message "rid" = Ok channel_id
      ∧ getitem_key message "u" = Ok u
      ∧ getitem_key u "_id" = Ok sender_id
      ∧ out = invoke cb [channel_id; sender_id; msg_id; message] w
      ∧ out.2 = World (_max_id w) (now w)
                  (trace w
                   ++ [Invoke cb [channel_id; sender_id; msg_id; message]]))
  ∨ (∃ e, out = (Raise e, w) ∧ e ∈ [KeyError; IndexError; TypeError]).
Proof.
  intros out. subst out.
  unfold apply_adapter, SubscribeToChannelMessages._wrap,
    SubscribeToChannelMessages.fn, bind, lift.
  destruct (getitem_key msg "fields") as [fields|e] eqn:Hfields;
    [|right; eauto using getitem_key_errors].
  destruct (getitem_key fields "args") as [args|e] eqn:Hargs;
    [|right; eauto using getitem_key_errors].
  destruct (getitem_idx args 0) as [message|e] eqn:Hmessage;
    [|right; eauto using getitem_idx_errors].
  destruct (getitem_key message "_id") as [msg_id|e] eqn:Hid;
    [|right; eauto using getitem_key_errors].
  destruct (getitem_key message "rid") as [channel_id|e] eqn:Hrid;
    [|right; eauto using getitem_key_errors].
  destruct (getitem_key message "u") as [u|e] eqn:Hu;
    [|right; eauto using getitem_key_errors].
  destruct (getitem_key u "_id") as [sender_id|e] eqn:Hsender;
    [|right; eauto using getitem_key_errors].
  left.
  apply getitem_key_Ok in Hfields as (m & -> & Hfields).
  apply getitem_key_Ok in Hargs as (f & -> & Hargs).
  pose proof Hid as Hid'.
  apply getitem_key_Ok in Hid' as (body & -> & _).
  apply getitem_idx_dict in Hmessage as (l & -> & Hl).
  destruct l as [|first rest]; [discriminate|]. injection Hl as ->.
  exists (VDict body), rest, msg_id, channel_id, u, sender_id.
  split; [by exists m, f|].
  repeat (split; [assumption|]).
  split; reflexivity.
Qed.

(** A character of a [str] is a lead byte followed by continuation bytes
    only. *)
Lemma chars_go_shape (s : string) :
  Forall (λ a, is_continuation a = true)
         (list_ascii_of_string (chars_go s).1)
  ∧ Forall (λ c, ∃ a p, c = String a p
                        ∧ Forall (λ b, is_continuation b = true)
                                 (list_ascii_of_string p))
           (chars_go s).2.
Proof.
  induction s as [|a s [IHp IHc]]; simpl; [by split|].
  destruct (chars_go s) as [pending cs]. simpl in *.
  destruct (is_continuation a) eqn:Ha; simpl.
  - split; [by constructor | exact IHc].
  - split; [constructor|]. constructor; [|exact IHc]. eauto.
Qed.

Lemma getitem_idx_removed (v : value) (i : nat) :
  getitem_idx v i = Ok (VStr "removed") →
  ∃ l, v = VList l ∧ l !! i = Some (VStr "removed").
Proof.
  destruct v as [| | | |s|l|d]; simpl; try discriminate.
  - destruct (chars s !! i) as [c|] eqn:Hc; [|discriminate].
    intros [= ->]. exfalso.
    destruct (chars_go_shape s) as [_ Hshape].
    apply list_elem_of_lookup_2 in Hc.
    rewrite Forall_forall in Hshape.
    destruct (Hshape _ Hc) as (a & p & [= <- <-] & Hp).
    by apply Forall_cons in Hp as [Hp _].
  - destruct (l !! i) eqn:Hi; [|discriminate]. intros [= ->]. eauto.
Qed.

(** X8. The channel-change adapter on any event whatsoever, three ways:
    the event's args list begins with ["removed"], and the adapter returns
    [None] having done nothing; or it begins with something else followed by
    a record carrying [_id] and [t], and the callback is invoked exactly once
    on that pair; or the adapter raises an access error and nothing
    happens. *)
Theorem ChannelChanges_adapter_total `{!Environment} (cb : callback)
    (msg : value) (w : world) :
  let out := apply_adapter (SubscribeToChannelChanges._wrap cb) msg w in
  (∃ rest, push_event msg (VStr "removed" :: rest) ∧ out = (Ok VNone, w))
  ∨ (∃ first second rest channel_id channel_type,
        push_event msg (first :: second :: rest)
        ∧ first ≠ VStr "removed"
        ∧ channel_record second (channel_id, channel_type)
        ∧ out = invoke cb [channel_id; channel_type] w
        ∧ out.2 = World (_max_id w) (now w)
                    (trace w ++ [Invoke cb [channel_id; channel_type]]))
  ∨ (∃ e, out = (Raise e, w) ∧ e ∈ [KeyError; IndexError; TypeError]).
Proof.
  intros out. subst out.
  unfold apply_adapter, SubscribeToChannelChanges._wrap,
    SubscribeToChannelChanges.fn, bind, lift.
  destruct (getitem_key msg "fields") as [fields|e] eqn:Hfields;
    [|right; right; eauto using getitem_key_errors].
  destruct (getitem_key fields "args") as [payload|e] eqn:Hargs;
    [|right; right; eauto using getitem_key_errors].
  destruct (getitem_idx payload 0) as [first|e] eqn:Hfirst;
    [|right; right; eauto using getitem_idx_errors].
  apply getitem_key_Ok in Hfields as (m & -> & Hfields).
  apply getitem_key_Ok in Hargs as (f & -> & Hargs).
  destruct (eq_str first "removed") eqn:Heq.
  { left. apply eq_str_true in Heq as ->.
    apply getitem_idx_removed in Hfirst as (l & -> & Hl).
    destruct l as [|x rest]; [discriminate|]. injection Hl as ->.
    exists rest. split; [by exists m, f | reflexivity]. }
  right.
  destruct (getitem_idx payload 1) as [second|e] eqn:Hsecond;
    [|right; eauto using getitem_idx_errors].
  destruct (getitem_key second "_id") as [channel_id|e] eqn:Hid;
    [|right; eauto using getitem_key_errors].
  destruct (getitem_key second "t") as [channel_type|e] eqn:Ht;
    [|right; eauto using getitem_key_errors].
  left.
  apply getitem_key_Ok in Hid as (s & -> & Hid).
  apply getitem_key_Ok in Ht as (s' & [= <-] & Ht).
  apply getitem_idx_dict in Hsecond as (l & -> & Hl).
  destruct l as [|x [|y rest]]; try discriminate.
  simpl in Hfirst, Hl. injection Hfirst as ->. injection Hl as ->.
  exists first, (VDict s), rest, channel_id, channel_type.
  split; [by exists m, f|].
  split; [intros ->; by rewrite (proj2 (eq_str_true _ _) eq_refl) in Heq|].
  split; [by exists s|].
  split; reflexivity.
Qed.

(** ** Sequences of calls: the ids on the wire *)

Lemma adapter_effect `{!Environment} (fn : adapter) (msg : value)
    (w : world) :
  (apply_adapter fn msg w).2 = w
  ∨ ∃ cb args,
      (apply_adapter fn msg w).2
      = World (_max_id w) (now w) (trace w ++ [Invoke cb args]).
Proof.
  destruct fn as [cb|cb]; simpl;
    unfold SubscribeToChannelMessages.fn, SubscribeToChannelChanges.fn,
      bind, lift, ret;
    repeat match goal with
           | |- context [match ?r with Ok _ => _ | Raise _ => _ end] =>
               destruct r; simpl
           | |- context [if ?b then _ else _] => destruct b; simpl
           end;
    eauto.
Qed.

Ltac effect_none :=
  split; [reflexivity|]; exists [];
  split; [by rewrite app_nil_r|]; split; [constructor|];
  left; split; [reflexivity | simpl; lia].
Ltac effect_silent :=
  split; [reflexivity|]; eexists [_];
  split; [reflexivity|]; split; [by repeat constructor|];
  left; split; [reflexivity | simpl; lia].
Ltac effect_id :=
  split; [reflexivity|]; eexists [_];
  split; [reflexivity|];
  split; [constructor; [simpl; try by read_dict | constructor]|];
  right; split; reflexivity.

(** What one call adds to the world: at most one hand-off that carries an
    id, and then the id is the one just allocated and is written in the
    message. *)
Lemma issue_effect `{!Environment} (r : request) (w : world) :
  now (issue r w) = now w
  ∧ ∃ evs,
      trace (issue r w) = trace w ++ evs
      ∧ Forall well_correlated evs
      ∧ ((correlation_ids evs = []
          ∧ _max_id w ≤ _max_id (issue r w) ≤ _max_id w + 1)
         ∨ (correlation_ids evs = [pretty (_max_id w + 1)]
            ∧ _max_id (issue r w) = _max_id w + 1)).
Proof.
  destruct r; unfold issue.
  - run_call. destruct (call_method_result _ _ _); effect_silent.
  - run_call.
    destruct (Login._get_request_msg _ args) as [msg|e] eqn:Hmsg;
      [|effect_none].
    apply Login_request_msg_id in Hmsg.
    destruct (call_method_result _ _ _); effect_id; exact Hmsg.
  - run_call. unfold GetChannels._get_request_msg.
    destruct (call_method_result _ _ _); effect_id.
  - run_call. destruct (call_method_result _ _ _); effect_id.
  - run_call. destruct (call_method_result _ _ _); effect_silent.
  - run_call. unfold SendTypingEvent._get_request_msg.
    destruct (call_method_result _ _ _); effect_id.
  - run_call. unfold SubscribeToChannelMessages._get_request_msg.
    destruct (create_subscription_result _ _ _ _); effect_id.
  - run_call. unfold SubscribeToChannelChanges._get_request_msg.
    destruct (create_subscription_result _ _ _ _); effect_id.
  - run_call. destruct (call_method_result _ _ _); effect_silent.
  - destruct (adapter_effect fn msg w) as [->|(cb & args & ->)];
      [effect_none | effect_silent].
Qed.

Lemma sorted_lt_NoDup (ns : list Z) : StronglySorted Z.lt ns → NoDup ns.
Proof.
  induction 1 as [|n ns _ IH Hall]; constructor; [|exact IH].
  intros Hin. rewrite Forall_forall in Hall. specialize (Hall n Hin). lia.
Qed.

Lemma run_cons `{!Environment} (r : request) (reqs : list request)
    (w : world) :
  run (r :: reqs) w = run reqs (issue r w).
Proof. reflexivity. Qed.

Lemma run_invariant `{!Environment} (reqs : list request) (w : world)
    (ns : list Z) :
  Forall well_correlated (trace w) →
  correlation_ids (trace w) = pretty <$> ns →
  StronglySorted Z.lt ns →
  Forall (λ n, n ≤ _max_id w) ns →
  now (run reqs w) = now w
  ∧ _max_id w ≤ _max_id (run reqs w)
  ∧ Forall well_correlated (trace (run reqs w))
  ∧ ∃ ns',
      correlation_ids (trace (run reqs w)) = pretty <$> (ns ++ ns')
      ∧ StronglySorted Z.lt (ns ++ ns')
      ∧ Forall (λ n, _max_id w < n ≤ _max_id (run reqs w)) ns'.
Proof.
  revert w ns. induction reqs as [|r reqs IH]; intros w ns Hwc Hids Hsorted Hle.
  - simpl. split; [reflexivity|]. split; [lia|]. split; [exact Hwc|].
    exists []. rewrite app_nil_r. by repeat split.
  - rewrite run_cons.
    destruct (issue_effect r w) as (Hnow & evs & Htrace & Hevs & Hstep).
    assert (∃ ns1,
      correlation_ids (trace (issue r w)) = pretty <$> (ns ++ ns1)
      ∧ StronglySorted Z.lt (ns ++ ns1)
      ∧ Forall (λ n, n ≤ _max_id (issue r w)) (ns ++ ns1)
      ∧ Forall (λ n, _max_id w < n ≤ _max_id (issue r w)) ns1
      ∧ _max_id w ≤ _max_id (issue r w)) as (ns1 & Hids1 & Hs1 & Hle1 & Hn1 & Hm1).
    { unfold correlation_ids in *. rewrite Htrace, omap_app, Hids.
      destruct Hstep as [[-> Hmax]|[-> Hmax]].
      - exists []. rewrite !app_nil_r. repeat split; try done; [|lia].
        eapply Forall_impl; [exact Hle|]. simpl. intros; lia.
      - exists [_max_id w + 1]. rewrite fmap_app. split; [reflexivity|].
        split.
        { apply StronglySorted_app_2; [|exact Hsorted|by repeat constructor].
          intros x1 x2 Hx1 ->%list_elem_of_singleton.
          rewrite Forall_forall in Hle. specialize (Hle x1 Hx1). lia. }
        split.
        { apply Forall_app. split.
          - eapply Forall_impl; [exact Hle|]. simpl. intros; lia.
          - repeat constructor. lia. }
        split; [repeat constructor; lia | lia]. }
    assert (Hwc1 : Forall well_correlated (trace (issue r w))).
    { rewrite Htrace. apply Forall_app. by split. }
    destruct (IH (issue r w) (ns ++ ns1) Hwc1 Hids1 Hs1 Hle1)
      as (Hnow' & Hmax' & Hwc' & ns2 & Hids2 & Hs2 & Hn2).
    split; [congruence|]. split; [lia|]. split; [exact Hwc'|].
    exists (ns1 ++ ns2). rewrite !(assoc_L (++)).
    split; [exact Hids2|]. split; [exact Hs2|].
    apply Forall_app. split.
    + eapply Forall_impl; [exact Hn1|]. simpl. intros; lia.
    + eapply Forall_impl; [exact Hn2|]. simpl. intros; lia.
Qed.

(** X9. Whatever operations are issued, in whatever order, with whatever
    push events delivered in between and whichever calls fail: the
    correlation ids handed to the Dispatcher since the start of the process
    are the decimal strings of strictly increasing positive integers, none
    above the counter; no two hand-offs ever share an id. *)
Theorem run_correlation_ids_distinct `{!Environment} (reqs : list request)
    (t : timestamp) :
  let w := run reqs (initial t) in
  ∃ ns,
    correlation_ids (trace w) = pretty <$> ns
    ∧ StronglySorted Z.lt ns
    ∧ Forall (λ n, 1 ≤ n ≤ _max_id w) ns
    ∧ NoDup (correlation_ids (trace w)).
Proof.
  intros w. subst w.
  destruct (run_invariant reqs (initial t) [])
    as (_ & _ & _ & ns & Hids & Hsorted & Hbound); try by constructor.
  exists ns. simpl in *. split; [exact Hids|]. split; [exact Hsorted|].
  split.
  - eapply Forall_impl; [exact Hbound|]. simpl. intros; lia.
  - rewrite Hids. apply (NoDup_fmap_2 _). by apply sorted_lt_NoDup.
Qed.

(** X10. In every hand-off that carries a correlation id, that id is the
    [id] field of the message handed off: the reply the Dispatcher matches
    under the id answers the message that bears it.  This holds for every
    call of the catalog, also when extra fields are merged into a
    SendMessage. *)
Theorem run_hand_offs_well_correlated `{!Environment} (reqs : list request)
    (t : timestamp) :
  Forall well_correlated (trace (run reqs (initial t))).
Proof.
  destruct (run_invariant reqs (initial t) [])
    as (_ & _ & Hwc & _); try by constructor.
  exact Hwc.
Qed.

Lemma issue_counter `{!Environment} (r : request) (w : world) :
  _max_id (issue r w) = _max_id w + (if allocates r then 1 else 0).
Proof.
  destruct (calls_allocate_once w)
    as (H1 & H2 & H3 & H4 & H5 & H6 & H7 & H8 & H9).
  destruct r; simpl; rewrite ?H1, ?H2, ?H3, ?H4, ?H5, ?H6, ?H7, ?H8, ?H9;
    try lia.
  destruct (adapter_effect fn msg w) as [->|(cb & args & ->)]; simpl; lia.
Qed.

(** X11. The counter counts the allocating calls issued so far: each call
    other than Connect and Unsubscribe advances it by exactly one, whether
    the call succeeds, the builder raises, the Dispatcher raises or the
    reply does not parse; Connect, Unsubscribe and the adapters never move
    it.  An id is thus spent even by a call that fails. *)
Theorem run_counter `{!Environment} (reqs : list request) (w : world) :
  _max_id (run reqs w)
  = _max_id w + Z.of_nat (length (filter (λ r, allocates r = true) reqs)).
Proof.
  revert w. induction reqs as [|r reqs IH]; intros w; [simpl; lia|].
  rewrite run_cons, IH, issue_counter.
  destruct (allocates r) eqn:Ha.
  - rewrite filter_cons_True by done. simpl length. lia.
  - rewrite filter_cons_False by (rewrite Ha; done). lia.
Qed.

(** ** SendMessage, SendReaction and Connect end to end *)

(** X12. [SendMessage.call] takes the text before the channel while the
    builder takes the channel before the text; the call passes them on the
    right way round.  Unless an extra field shadows them, the text ends up
    under [msg] and the channel under [rid] of the one message handed off,
    with a fresh id under which the reply is awaited; the reply itself is
    dropped: the call returns [None] whatever the server answered. *)
Theorem SendMessage_call_places_arguments `{!Environment}
    (msg_text channel_id : value) (kwargs : gmap string value) (w : world) :
  kwargs !! "rid" = None →
  kwargs !! "msg" = None →
  let msg_id := pretty (_max_id w + 1) in
  let w1 := World (_max_id w + 1) (now w) (trace w) in
  let out := SendMessage.call msg_text channel_id kwargs w in
  ∃ msg,
    trace out.2 = trace w ++ [CallMethod msg (Some msg_id)]
    ∧ getitem_key msg "method" = Ok (VStr "sendMessage")
    ∧ getitem_key msg "id" = Ok (VStr msg_id)
    ∧ param0_field msg "rid" = Ok channel_id
    ∧ param0_field msg "msg" = Ok msg_text
    ∧ out.1 = (call_method_result w1 msg (Some msg_id) ≫= λ _, Ok VNone).
Proof.
  intros Hrid Hmsg msg_id w1 out. subst out.
  eexists. run_call. fold msg_id w1.
  split; [by destruct (call_method_result w1 _ _)|].
  split; [by read_dict|]. split; [by read_dict|].
  rewrite !param0_field_single. simpl.
  rewrite !lookup_union_r by done.
  split; [reflexivity|]. split; [reflexivity|].
  by destruct (call_method_result w1 _ _).
Qed.

Lemma SendMessage_call_places_arguments_witness :
  let E :=
    answering (dict [("msg", VStr "result");
                     ("error", dict [("error", VStr "not-allowed")])]) in
  let kwargs : gmap string value := {["alias" := VStr "bot"]} in
  let out :=
    SendMessage.call (VStr "hello") (VStr "GENERAL") kwargs
      (initial "1700000020.606499") in
  kwargs !! "rid" = None
  ∧ kwargs !! "msg" = None
  ∧ out.1 = Ok VNone
  ∧ ∃ msg,
      trace out.2 = [CallMethod msg (Some "1")]
      ∧ param0_field msg "rid" = Ok (VStr "GENERAL")
      ∧ param0_field msg "msg" = Ok (VStr "hello").
Proof.
  intros E kwargs out.
  assert (H1 : kwargs !! "rid" = None) by reflexivity.
  assert (H2 : kwargs !! "msg" = None) by reflexivity.
  split; [exact H1|]. split; [exact H2|].
  destruct (SendMessage_call_places_arguments (VStr "hello") (VStr "GENERAL")
              kwargs (initial "1700000020.606499") H1 H2)
    as (msg & Htrace & _ & _ & Hrid & Hmsg & Hout).
  split; [exact Hout|]. by exists msg.
Defined.

(** X13. [SendReaction.call] takes the message id before the emoji and
    sends them the other way round, emoji first.  It allocates an id and
    writes it in the message, but hands the message off without it: no reply
    is awaited, and the call returns [None] unless the hand-off itself
    raises. *)
Theorem SendReaction_call_effect `{!Environment} (orig_msg_id emoji : value)
    (w : world) :
  let msg_id := pretty (_max_id w + 1) in
  let w1 := World (_max_id w + 1) (now w) (trace w) in
  let out := SendReaction.call orig_msg_id emoji w in
  ∃ msg,
    out.2 = World (_max_id w + 1) (now w) (trace w ++ [CallMethod msg None])
    ∧ getitem_key msg "method" = Ok (VStr "setReaction")
    ∧ getitem_key msg "id" = Ok (VStr msg_id)
    ∧ getitem_key msg "params" = Ok (VList [emoji; orig_msg_id])
    ∧ correlation_ids (trace out.2) = correlation_ids (trace w)
    ∧ out.1 = (call_method_result w1 msg None ≫= λ _, Ok VNone).
Proof.
  intros msg_id w1 out. subst out.
  eexists. run_call. fold msg_id w1.
  unfold SendReaction._get_request_msg.
  split; [by destruct (call_method_result w1 _ _)|].
  split; [by read_dict|]. split; [by read_dict|]. split; [by read_dict|].
  split; [|by destruct (call_method_result w1 _ _)].
  destruct (call_method_result w1 _ _); simpl;
    unfold correlation_ids; rewrite omap_app; simpl; by rewrite app_nil_r.
Qed.

(** X14. [Connect.call] hands off the same fixed handshake every time,
    whatever the state: protocol version ["1"], supported versions [["1"]],
    no [id] field and no correlation id; it allocates nothing and returns
    [None] unless the hand-off raises. *)
Theorem Connect_call_effect `{!Environment} (w : world) :
  let out := Connect.call w in
  out.2 = World (_max_id w) (now w)
            (trace w ++ [CallMethod Connect.REQUEST_MSG None])
  ∧ out.1 = (call_method_result w Connect.REQUEST_MSG None ≫= λ _, Ok VNone)
  ∧ getitem_key Connect.REQUEST_MSG "msg" = Ok (VStr "connect")
  ∧ getitem_key Connect.REQUEST_MSG "version" = Ok (VStr "1")
  ∧ getitem_key Connect.REQUEST_MSG "support" = Ok (VList [VStr "1"])
  ∧ getitem_key Connect.REQUEST_MSG "id" = Raise KeyError.
Proof.
  intros out. subst out. run_call.
  split; [by destruct (call_method_result w _ _)|].
  split; [by destruct (call_method_result w _ _)|].
  by repeat split.
Qed.

(** ** Subscribing and unsubscribing *)

(** X15. Both subscription calls register the adapter made from the
    caller's callback under a fresh id, with a [sub] message bearing that
    id, and on success return that very id.  Handing the returned value to
    [Unsubscribe.call], in any later state, sends an [unsub] message bearing
    the same id, without a correlation id and without allocating a new
    one. *)
Theorem subscribe_then_unsubscribe `{!Environment} (w : world) :
  let id := pretty (_max_id w + 1) in
  let w1 := World (_max_id w + 1) (now w) (trace w) in
  (∀ channel_id cb,
     let out := SubscribeToChannelMessages.call channel_id cb w in
     ∃ msg,
       trace out.2
       = trace w ++ [CreateSubscription msg id (ChannelMessagesFn cb)]
       ∧ getitem_key msg "msg" = Ok (VStr "sub")
       ∧ getitem_key msg "name" = Ok (VStr "stream-room-messages")
       ∧ getitem_key msg "id" = Ok (VStr id)
       ∧ (params ← getitem_key msg "params"; getitem_idx params 0)
         = Ok channel_id
       ∧ out.1 = (create_subscription_result w1 msg id (ChannelMessagesFn cb)
                  ≫= λ _, Ok (VStr id)))
  ∧ (∀ user_id cb,
       let out := SubscribeToChannelChanges.call user_id cb w in
       ∃ msg,
         trace out.2
         = trace w ++ [CreateSubscription msg id (ChannelChangesFn cb)]
         ∧ getitem_key msg "msg" = Ok (VStr "sub")
         ∧ getitem_key msg "name" = Ok (VStr "stream-notify-user")
         ∧ getitem_key msg "id" = Ok (VStr id)
         ∧ getitem_key msg "params"
           = Ok (VList [VStr (user_id +:+ "/rooms-changed"); VBool false])
         ∧ out.1 = (create_subscription_result w1 msg id
                      (ChannelChangesFn cb)
                    ≫= λ _, Ok (VStr id)))
  ∧ (∀ w2,
       let out := Unsubscribe.call (VStr id) w2 in
       out.2 = World (_max_id w2) (now w2)
                 (trace w2
                  ++ [CallMethod (dict [("msg", VStr "unsub");
                                        ("id", VStr id)]) None])
       ∧ out.1
         = (call_method_result w2
              (dict [("msg", VStr "unsub"); ("id", VStr id)]) None
            ≫= λ _, Ok VNone)).
Proof.
  intros id w1. split; [|split].
  - intros channel_id cb out. subst out. eexists. run_call. fold id w1.
    unfold SubscribeToChannelMessages._get_request_msg,
      SubscribeToChannelMessages._wrap.
    split; [by destruct (create_subscription_result w1 _ _ _)|].
    do 3 (split; [by read_dict|]).
    split; [by read_dict|].
    by destruct (create_subscription_result w1 _ _ _).
  - intros user_id cb out. subst out. eexists. run_call. fold id w1.
    unfold SubscribeToChannelChanges._get_request_msg,
      SubscribeToChannelChanges._wrap.
    split; [by destruct (create_subscription_result w1 _ _ _)|].
    do 4 (split; [by read_dict|]).
    by destruct (create_subscription_result w1 _ _ _).
  - intros w2 out. subst out. run_call.
    unfold Unsubscribe._get_request_msg.
    split; by destruct (call_method_result w2 _ _).
Qed.

Example subscribe_then_unsubscribe_run :
  let E := answering VNone in
  trace (run [ReqSubscribeToChannelMessages (VStr "GENERAL") "on_message";
              ReqUnsubscribe (VStr "1")]
             (initial "1700000020.606499"))
  = [CreateSubscription
       (SubscribeToChannelMessages._get_request_msg "1" (VStr "GENERAL"))
       "1" (ChannelMessagesFn "on_message");
     CallMethod (dict [("msg", VStr "unsub"); ("id", VStr "1")]) None].
Proof. reflexivity. Qed.

(** ** The hash input of SendMessage *)

Lemma pretty_N_go_digits (x : N) (s : string) :
  Forall (λ a, is_Some (Ascii.is_nat a)) (list_ascii_of_string s) →
  Forall (λ a, is_Some (Ascii.is_nat a))
         (list_ascii_of_string (pretty_N_go x s)).
Proof.
  revert s. induction (N.lt_wf_0 x) as [x _ IH]; intros s Hs.
  assert (x = 0 ∨ 0 < x)%N as [->|Hpos] by lia.
  - by rewrite pretty_N_go_0.
  - rewrite pretty_N_go_step by done. apply IH; [by apply N.div_lt|].
    simpl. constructor; [|exact Hs].
    unfold pretty_N_char. repeat case_match; by eexists.
Qed.

Lemma pretty_digits (n : Z) :
  0 ≤ n →
  Forall (λ a, is_Some (Ascii.is_nat a)) (list_ascii_of_string (pretty n)).
Proof.
  destruct n as [|p|p]; [intros _|intros _|lia].
  - repeat constructor. by eexists.
  - unfold pretty, pretty_Z, pretty, pretty_positive, pretty, pretty_N.
    rewrite decide_False by done. apply pretty_N_go_digits. constructor.
Qed.

Lemma string_app_cons (c : ascii) (a s : string) :
  String c a +:+ s = String c (a +:+ s).
Proof. reflexivity. Qed.

Lemma string_app_nil (s : string) : "" +:+ s = s.
Proof. reflexivity. Qed.

Lemma digits_colon_split (a b : string) (t1 t2 : string) :
  Forall (λ c, is_Some (Ascii.is_nat c)) (list_ascii_of_string a) →
  Forall (λ c, is_Some (Ascii.is_nat c)) (list_ascii_of_string b) →
  a +:+ ":" +:+ t1 = b +:+ ":" +:+ t2 → a = b ∧ t1 = t2.
Proof.
  revert b. induction a as [|c a IH]; intros [|c' b] Ha Hb Heq;
    rewrite ?string_app_cons, ?string_app_nil in Heq; simpl in Ha, Hb.
  - by injection Heq as ->.
  - injection Heq as <- _. apply Forall_cons in Hb as [[n Hn] _].
    discriminate.
  - injection Heq as -> _. apply Forall_cons in Ha as [[n Hn] _].
    discriminate.
  - injection Heq as -> Heq.
    apply Forall_cons in Ha as [_ Ha]. apply Forall_cons in Hb as [_ Hb].
    destruct (IH b Ha Hb Heq) as [-> ->]. done.
Qed.

(** X16. The string SendMessage hashes determines both of its parts: for
    ids that the allocator returns (decimal strings of non-negative
    counters), two hash inputs are equal only when the correlation ids are
    equal and the timestamps are equal.  The colon cannot be mistaken for
    part of an id. *)
Theorem id_seed_unambiguous (m n : Z) (t1 t2 : timestamp) :
  0 ≤ m →
  0 ≤ n →
  pretty m +:+ ":" +:+ t1 = pretty n +:+ ":" +:+ t2 →
  m = n ∧ t1 = t2.
Proof.
  intros Hm Hn Heq.
  apply digits_colon_split in Heq as [Hid ->]; [|by apply pretty_digits..].
  split; [|reflexivity]. by apply (inj pretty).
Qed.

Lemma id_seed_unambiguous_witness :
  0 ≤ 12
  ∧ (pretty (12 : Z) +:+ ":" +:+ "1700000020.606499" : string)
    = pretty (12 : Z) +:+ ":" +:+ "1700000020.606499"
  ∧ ((12 : Z) = 12 ∧ ("1700000020.606499" : timestamp) = "1700000020.606499")
  ∧ (pretty (1 : Z) +:+ ":" +:+ "2:3" : string)
    ≠ pretty (12 : Z) +:+ ":" +:+ "3".
Proof.
  assert (H0 : 0 ≤ 12) by lia.
  split; [exact H0|]. split; [reflexivity|].
  split; [exact (id_seed_unambiguous 12 12 _ _ H0 H0 eq_refl)|].
  intros Heq.
  destruct (id_seed_unambiguous 1 12 "2:3" "3" ltac:(lia) H0 Heq). lia.
Defined.

(** ** Which error a malformed login reply raises *)

(** X17. [Login._parse] raises nothing but [KeyError] and [TypeError]:
    [KeyError] exactly when the response is a dict without [result] (a
    rejected login, which carries [error] instead) or its [result] is a dict
    without [id]; [TypeError] exactly when the response, or its [result], is
    not a dict.  It never returns a default in place of a missing id. *)
Theorem Login_parse_error_kinds (response : value) :
  (Login._parse response = Raise KeyError
   ↔ ∃ d, response = VDict d
          ∧ (d !! "result" = None
             ∨ ∃ r, d !! "result" = Some (VDict r) ∧ r !! "id" = None))
  ∧ (Login._parse response = Raise TypeError
     ↔ (∀ d, response ≠ VDict d)
       ∨ ∃ d v, response = VDict d ∧ d !! "result" = Some v
                ∧ ∀ r, v ≠ VDict r)
  ∧ (∀ e, Login._parse response = Raise e → e = KeyError ∨ e = TypeError).
Proof.
  unfold Login._parse.
  destruct response as [| | | | | |d]; simpl;
    try (split; [split; [discriminate | by intros (d & ? & _)]|];
         split; [split; [by left | reflexivity]|];
         intros e [= <-]; by right).
  destruct (d !! "result") as [result|] eqn:Hresult; simpl.
  - destruct result as [| | | | | |r]; simpl;
      try (split; [split; [discriminate|
                           intros (d' & [= <-] & [?|(r & ? & _)]);
                           congruence]|];
           split; [split; [intros _; right; eexists _, _;
                           repeat split; [eassumption | discriminate]
                          | reflexivity]|];
           intros e [= <-]; by right).
    destruct (r !! "id") as [x|] eqn:Hid; simpl.
    + split; [split; [discriminate|
                      intros (d' & [= <-] & [?|(r' & ? & ?)]); congruence]|].
      split; [split; [discriminate|]|discriminate].
      intros [Hnot|(d' & v & [= <-] & Hv & Hnd)];
        [by destruct (Hnot d) | rewrite Hresult in Hv; injection Hv as <-;
                                 by destruct (Hnd r)].
    + split; [split; [intros _; exists d; split; [reflexivity|]; right;
                      by exists r
                     | reflexivity]|].
      split; [split; [discriminate|]|intros e [= <-]; by left].
      intros [Hnot|(d' & v & [= <-] & Hv & Hnd)];
        [by destruct (Hnot d) | rewrite Hresult in Hv; injection Hv as <-;
                                 by destruct (Hnd r)].
  - split; [split; [intros _; exists d; split; [reflexivity | by left]
                   | reflexivity]|].
    split; [split; [discriminate|]|intros e [= <-]; by left].
    intros [Hnot|(d' & v & [= <-] & Hv & _)];
      [by destruct (Hnot d) | congruence].
Qed.

(** ** What the extra fields of SendMessage cannot reach *)

(** X18. Extra fields go into the params object and nowhere else: whatever
    their keys (also [id], [method] or [params]), the message keeps its four
    envelope fields, its tag, method name and correlation id are untouched,
    and params stays a list of exactly one object. *)
Theorem SendMessage_envelope_untouched (msg_id : string)
    (channel_id msg_text : value) (kwargs : gmap string value) (w : world) :
  ∃ m params0,
    SendMessage._get_request_msg msg_id channel_id msg_text kwargs w
    = (Ok (VDict m), w)
    ∧ dom m = {["msg"; "method"; "id"; "params"]}
    ∧ m !! "msg" = Some (VStr "method")
    ∧ m !! "method" = Some (VStr "sendMessage")
    ∧ m !! "id" = Some (VStr msg_id)
    ∧ m !! "params" = Some (VList [VDict params0])
    ∧ dom kwargs ⊆ dom params0.
Proof.
  eexists _, _. rewrite SendMessage_request_msg. unfold dict.
  split; [reflexivity|]. split; [reflexivity|].
  do 4 (split; [reflexivity|]).
  rewrite dom_union. set_solver.
Qed.
